(** * Code2MarkDown: a shallow embedding of the converter and its properties

    The development follows the Python sources [src/utils.py],
    [src/config.py] and [src/code2md.py].  Python values are modelled as
    follows.

    - [str] is a list of Unicode code points ([N]); string literals of the
      source are written [u "..."] and decoded from UTF-8 once.
    - Python [int] is [Z]; counters that only ever count are [nat].
    - A directory tree is an inductive [Node]; [iterdir] yields the entries
      of a directory in the order of the list.
    - The library functions [fnmatch.fnmatch] and [str.lower] are not part
      of the repository: definitions that call them take them as section
      variables, and [glob_match] / [ascii_lower] are reference instances
      used to run the definitions on concrete inputs. *)

From Stdlib Require Import ZArith NArith Ascii String Decimal.
From stdpp Require Import gmap list sorting.

Local Open Scope N_scope.

(** ** Python strings *)

Abbreviation str := (list N) (only parsing).

(** Decoding of the UTF-8 bytes of a literal into code points. *)
Fixpoint utf8_decode (bs : list N) : str :=
  match bs with
  | [] => []
  | b0 :: r0 =>
    if b0 <? 0x80 then b0 :: utf8_decode r0
    else if b0 <? 0xE0 then
      match r0 with
      | b1 :: r1 =>
        N.lor (N.shiftl (N.land b0 0x1F) 6) (N.land b1 0x3F) :: utf8_decode r1
      | _ => []
      end
    else if b0 <? 0xF0 then
      match r0 with
      | b1 :: b2 :: r2 =>
        N.lor (N.shiftl (N.land b0 0x0F) 12)
          (N.lor (N.shiftl (N.land b1 0x3F) 6) (N.land b2 0x3F))
        :: utf8_decode r2
      | _ => []
      end
    else
      match r0 with
      | b1 :: b2 :: b3 :: r3 =>
        N.lor (N.shiftl (N.land b0 0x07) 18)
          (N.lor (N.shiftl (N.land b1 0x3F) 12)
             (N.lor (N.shiftl (N.land b2 0x3F) 6) (N.land b3 0x3F)))
        :: utf8_decode r3
      | _ => []
      end
  end.

Definition u (s : string) : str :=
  utf8_decode (map N_of_ascii (list_ascii_of_string s)).

(** [sep.join(lines)] *)
Fixpoint join (sep : str) (lines : list str) : str :=
  match lines with
  | [] => []
  | [l] => l
  | l :: rest => l ++ sep ++ join sep rest
  end.

(** [s.startswith(p)] *)
Fixpoint startswith (s p : str) {struct p} : bool :=
  match p, s with
  | [], _ => true
  | _ :: _, [] => false
  | c :: p', d :: s' => (c =? d) && startswith s' p'
  end.

(** [s == t] *)
Fixpoint str_eqb (s t : str) : bool :=
  match s, t with
  | [], [] => true
  | c :: s', d :: t' => (c =? d) && str_eqb s' t'
  | _, _ => false
  end.

(** [s <= t]: Python compares strings lexicographically by code point. *)
Fixpoint str_leb (s t : str) : bool :=
  match s, t with
  | [], _ => true
  | _ :: _, [] => false
  | c :: s', d :: t' => (c <? d) || ((c =? d) && str_leb s' t')
  end.

(** [x in l] for a list of strings. *)
Definition str_in (x : str) (l : list str) : bool := existsb (str_eqb x) l.

(** [content.replace(old, new)] for a non-empty [old]: occurrences are
    replaced from the left and do not overlap.  [skip] counts the code
    points of a matched occurrence that are still to be dropped. *)
Fixpoint replace_from (old new : str) (skip : nat) (s : str) : str :=
  match s with
  | [] => []
  | c :: rest =>
    match skip with
    | S k => replace_from old new k rest
    | O =>
      if startswith s old
      then new ++ replace_from old new (pred (length old)) rest
      else c :: replace_from old new 0 rest
    end
  end.

Definition replace (old new s : str) : str := replace_from old new 0 s.

(** The reference instance of [str.lower]: the letters A..Z are mapped to
    a..z, every other code point is kept. *)
Definition ascii_lower_cp (c : N) : N :=
  if (65 <=? c) && (c <=? 90) then c + 32 else c.

Definition ascii_lower (s : str) : str := map ascii_lower_cp s.

(** [str(n)] for an integer. *)
Fixpoint str_of_uint (d : Decimal.uint) : str :=
  match d with
  | Nil => []
  | D0 d => 48 :: str_of_uint d
  | D1 d => 49 :: str_of_uint d
  | D2 d => 50 :: str_of_uint d
  | D3 d => 51 :: str_of_uint d
  | D4 d => 52 :: str_of_uint d
  | D5 d => 53 :: str_of_uint d
  | D6 d => 54 :: str_of_uint d
  | D7 d => 55 :: str_of_uint d
  | D8 d => 56 :: str_of_uint d
  | D9 d => 57 :: str_of_uint d
  end.

Definition str_of_N (n : N) : str := str_of_uint (N.to_uint n).

Definition str_of_Z (z : Z) : str :=
  match z with
  | Zneg p => 45 :: str_of_N (Npos p)
  | _ => str_of_N (Z.to_N z)
  end.

Definition str_of_nat (n : nat) : str := str_of_N (N.of_nat n).

Definition is_digit (c : N) : bool := (48 <=? c) && (c <=? 57).

(** [\d] in a [str] pattern of [re] matches every Unicode decimal digit
    (category Nd), not only 0..9.  The decimal digits come in runs of
    ten, from the digit zero to the digit nine of a script; these are the
    code points of the zeros (Unicode 14.0, the table of Python 3.11). *)
Definition decimal_digit_zeros : list N :=
  [0x0030; 0x0660; 0x06F0; 0x07C0; 0x0966; 0x09E6; 0x0A66; 0x0AE6; 0x0B66;
   0x0BE6; 0x0C66; 0x0CE6; 0x0D66; 0x0DE6; 0x0E50; 0x0ED0; 0x0F20; 0x1040;
   0x1090; 0x17E0; 0x1810; 0x1946; 0x19D0; 0x1A80; 0x1A90; 0x1B50; 0x1BB0;
   0x1C40; 0x1C50; 0xA620; 0xA8D0; 0xA900; 0xA9D0; 0xA9F0; 0xAA50; 0xABF0;
   0xFF10; 0x104A0; 0x10D30; 0x11066; 0x110F0; 0x11136; 0x111D0; 0x112F0;
   0x11450; 0x114D0; 0x11650; 0x116C0; 0x11730; 0x118E0; 0x11950; 0x11C50;
   0x11D50; 0x11DA0; 0x16A60; 0x16AC0; 0x16B50; 0x1D7CE; 0x1D7D8; 0x1D7E2;
   0x1D7EC; 0x1D7F6; 0x1E140; 0x1E2F0; 0x1E950; 0x1FBF0].

Definition is_decimal_digit (c : N) : bool :=
  existsb (fun zero => (zero <=? c) && (c <? zero + 10)) decimal_digit_zeros.

(** ** [format_file_size] (utils.py)

    The function computes with Python floats.  A float is modelled by the
    dyadic rational it denotes: [Float m e] is [m / 2^e].  [float(n)]
    rounds to 53 significant bits (to nearest, ties to even); dividing a
    float that is at least 1024 by 1024.0 only changes the exponent, so the
    quotient is exact.  Sizes come from [st_size], far below the range in
    which [float] overflows. *)

Record float := Float { mant : Z; expo : N }.

Definition float_of_int (n : Z) : float :=
  let a := Z.abs n in
  let bits := (Z.log2 a + 1)%Z in
  if (bits <=? 53)%Z then Float n 0
  else
    let e := (bits - 53)%Z in
    let q := Z.shiftr a e in
    let r := Z.land a (Z.ones e) in
    let half := Z.shiftl 1 (e - 1)%Z in
    let q' := if (half <? r)%Z || ((r =? half)%Z && Z.odd q) then (q + 1)%Z else q in
    Float (Z.sgn n * Z.shiftl q' e)%Z 0.

(** [size >= 1024.0] *)
Definition float_ge_1024 (x : float) : bool :=
  (1024 * 2 ^ Z.of_N (expo x) <=? mant x)%Z.

(** [size / 1024.0] *)
Definition float_div_1024 (x : float) : float :=
  Float (mant x) (expo x + 10).

(** [int(size)]: truncation towards zero. *)
Definition int_of_float (x : float) : Z :=
  Z.quot (mant x) (2 ^ Z.of_N (expo x)).

(** The integer nearest to [10 * |x|], ties to even. *)
Definition round_tenths (x : float) : Z :=
  let num := (10 * Z.abs (mant x))%Z in
  let den := (2 ^ Z.of_N (expo x))%Z in
  let q := (num / den)%Z in
  let r := (num mod den)%Z in
  if (den <? 2 * r)%Z || ((2 * r =? den)%Z && Z.odd q) then (q + 1)%Z else q.

(** [f"{size:.1f}"] *)
Definition format_1f (x : float) : str :=
  let t := round_tenths x in
  (if (mant x <? 0)%Z then [45] else [])
  ++ str_of_Z (t / 10) ++ [46] ++ str_of_Z (t mod 10).

Definition size_names : list str := [u "B"; u "KB"; u "MB"; u "GB"].

(** The [while] loop; [fuel] is [len(size_names) - 1 - i], so that the
    test [i < len(size_names) - 1] is the test for a successor. *)
Fixpoint size_loop (fuel : nat) (size : float) (i : nat) : float * nat :=
  match fuel with
  | O => (size, i)
  | S fuel' =>
    if float_ge_1024 size
    then size_loop fuel' (float_div_1024 size) (S i)
    else (size, i)
  end.

Definition format_file_size (size_bytes : Z) : str :=
  if (size_bytes =? 0)%Z then u "0 B"
  else
    let '(size, i) := size_loop (length size_names - 1) (float_of_int size_bytes) 0 in
    let unit := nth i size_names [] in
    match i with
    | O => str_of_Z (int_of_float size) ++ u " " ++ unit
    | S _ => format_1f size ++ u " " ++ unit
    end.

(** ** The file system

    A [Node] is what a [pathlib.Path] of the source points at: a regular
    file with the size reported by [stat], or a directory with its entries
    in the order in which [iterdir] yields them.  The trees are readable:
    the [OSError] branches of the source are not exercised. *)

#[local] Set Warnings "-register-all".

Inductive Node :=
| File (name : str) (size : Z)
| Dir (name : str) (entries : list Node).

Definition node_name (p : Node) : str :=
  match p with File name _ => name | Dir name _ => name end.

Definition is_file (p : Node) : bool :=
  match p with File _ _ => true | Dir _ _ => false end.

Definition is_dir (p : Node) : bool :=
  match p with File _ _ => false | Dir _ _ => true end.

Definition iterdir (p : Node) : list Node :=
  match p with File _ _ => [] | Dir _ entries => entries end.

(** [get_file_info(p)['size']] *)
Definition file_size (p : Node) : Z :=
  match p with File _ size => size | Dir _ _ => 0%Z end.

(** [path.rglob('*')]: the entries of the directory, then those of each
    sub-directory, recursively.  No directory is left out. *)
Fixpoint rglob (p : Node) : list Node :=
  match p with
  | File _ _ => []
  | Dir _ entries => entries ++ flat_map rglob entries
  end.

(** [s.rfind(c)] *)
Fixpoint rfind (c : N) (s : str) : option nat :=
  match s with
  | [] => None
  | d :: rest =>
    match rfind c rest with
    | Some i => Some (S i)
    | None => if d =? c then Some O else None
    end
  end.

(** [PurePath.suffix]: the part of the name from its last dot on, unless
    that dot is the first or the last character of the name. *)
Definition suffix (name : str) : str :=
  match rfind 46 name with
  | Some i =>
    if Nat.ltb 0 i && Nat.ltb i (length name - 1)%nat then drop i name else []
  | None => []
  end.

(** A path as its sequence of components ([Path.parts]). *)
Abbreviation Path := (list str) (only parsing).

(** [path.name] *)
Definition path_name (parts : Path) : str := List.last parts [].

(** ** Sorting

    [list.sort(key=...)] and [sorted(..., key=...)] are stable: elements
    with equal keys keep their order. *)

Section Sorting.
Context {A : Type} (le : A → A → bool).

Fixpoint insert_sorted (x : A) (l : list A) : list A :=
  match l with
  | [] => [x]
  | y :: rest => if le x y then x :: l else y :: insert_sorted x rest
  end.

Definition py_sorted (l : list A) : list A := foldr insert_sorted [] l.
End Sorting.

(** ** Configuration (config.py) *)

Record Config := {
  code_base_dir : Path;
  markdown_base_dir : Path;
  code_extensions : gset str;
  project_extensions : gset str;
  ignore_files : gset str;
  ignore_dirs : gset str;
  max_file_size : Z;
  include_file_content : bool;
  include_file_stats : bool;
  include_project_structure : bool
}.

(** The values set by [Config.__post_init__]. *)
Definition default_config : Config := {|
  code_base_dir := [u "Code"];
  markdown_base_dir := [u "Markdown"];
  code_extensions := list_to_set
    [u ".c"; u ".h"; u ".cpp"; u ".hpp"; u ".cc"; u ".cxx";
     u ".py"; u ".java"; u ".js"; u ".ts"; u ".cs";
     u ".go"; u ".rs"; u ".php"; u ".rb"; u ".swift";
     u ".kt"; u ".scala"; u ".clj"; u ".hs"; u ".ml";
     u ".asm"; u ".s"; u ".a51"];
  project_extensions := list_to_set
    [u ".uvproj"; u ".uvopt"; u ".uvgui"; u ".sln"; u ".vcxproj";
     u ".pro"; u ".qbs"; u ".cmake"; u ".mk"; u ".makefile";
     u ".json"; u ".xml"; u ".yml"; u ".yaml"; u ".toml";
     u ".cfg"; u ".conf"; u ".ini"];
  ignore_files := list_to_set
    [u ".DS_Store"; u "Thumbs.db"; u ".gitignore";
     u "__pycache__"; u "*.pyc"; u "*.pyo"; u "*.pyd";
     u ".vscode"; u ".idea"; u ".vs"];
  ignore_dirs := list_to_set
    [u "__pycache__"; u ".git"; u ".svn"; u ".hg";
     u "node_modules"; u ".vscode"; u ".idea"; u ".vs";
     u "bin"; u "obj"; u "build"; u "dist"; u "target"];
  max_file_size := 1024 * 1024;
  include_file_content := true;
  include_file_stats := true;
  include_project_structure := true
|}.

(** [x in s] for a set of strings. *)
Definition set_mem (x : str) (s : gset str) : bool := bool_decide (x ∈ s).

(** The reference instance of [fnmatch.fnmatch] on a POSIX system, for
    patterns made of literal characters, [*] and [?]. *)
Fixpoint glob_match_from (pattern : str) (name : str) : bool :=
  match pattern with
  | [] => match name with [] => true | _ => false end
  | c :: pattern' =>
    if c =? 42 then
      (fix star (rest : str) : bool :=
         glob_match_from pattern' rest
         || match rest with [] => false | _ :: rest' => star rest' end) name
    else
      match name with
      | [] => false
      | d :: name' => ((c =? 63) || (c =? d)) && glob_match_from pattern' name'
      end
  end.

Definition glob_match (name pattern : str) : bool := glob_match_from pattern name.

(** The exceptions of [discover_projects]. *)
Inductive PyError := FileNotFoundError | NotADirectoryError.

(** ** utils.py and code2md.py *)

Section Converter.
Context (fnmatch : str → str → bool) (lower : str → str).

(** *** Ignore rules *)

Definition should_ignore_file (file_path : Node) (ignore_patterns : gset str) : bool :=
  let file_name := node_name file_path in
  existsb (fun pattern => fnmatch file_name pattern) (elements ignore_patterns).

Definition should_ignore_dir (dir_path : Node) (ignore_patterns : gset str) : bool :=
  let dir_name := node_name dir_path in
  set_mem dir_name ignore_patterns.

(** *** [generate_tree_structure] *)

Definition too_deep_marker : str := Eval vm_compute in u "[目录层次过深，已截断]".
Definition last_prefix : str := Eval vm_compute in u "└── ".
Definition middle_prefix : str := Eval vm_compute in u "├── ".
Definition last_child_prefix : str := Eval vm_compute in u "    ".
Definition middle_child_prefix : str := Eval vm_compute in u "│   ".

(** The loop that fills [items]. *)
Definition visible_items (root_path : Node) (ignore_dirs ignore_files : gset str)
  : list (Node * bool) :=
  omap (fun item =>
          if is_dir item && negb (should_ignore_dir item ignore_dirs)
          then Some (item, true)
          else if is_file item && negb (should_ignore_file item ignore_files)
          then Some (item, false)
          else None)
       (iterdir root_path).

(** The sort key [(not x[1], x[0].name.lower())] and the order of
    tuples: [False < True], then the strings. *)
Definition item_key (x : Node * bool) : bool * str :=
  (negb x.2, lower (node_name x.1)).

Definition key_leb (k1 k2 : bool * str) : bool :=
  match k1.1, k2.1 with
  | false, true => true
  | true, false => false
  | _, _ => str_leb k1.2 k2.2
  end.

Definition item_leb (x y : Node * bool) : bool := key_leb (item_key x) (item_key y).

(** The loop over [enumerate(items)]; the entry is the last one when no
    entry follows it. *)
Fixpoint render_items (subtree : Node → list str) (items : list (Node * bool))
  : list str :=
  match items with
  | [] => []
  | (item, is_dir) :: rest =>
    let is_last := match rest with [] => true | _ => false end in
    let prefix := if is_last then last_prefix else middle_prefix in
    (if is_dir
     then
       let child_prefix := if is_last then last_child_prefix else middle_child_prefix in
       (prefix ++ node_name item ++ u "/")
         :: map (fun line => child_prefix ++ line) (subtree item)
     else [prefix ++ node_name item])
    ++ render_items subtree rest
  end.

(** [depth_left] is [max_depth - current_depth]. *)
Fixpoint tree_lines (ignore_dirs ignore_files : gset str) (depth_left : nat)
    (root_path : Node) : list str :=
  match depth_left with
  | O => [too_deep_marker]
  | S depth_left' =>
    render_items (tree_lines ignore_dirs ignore_files depth_left')
      (py_sorted item_leb (visible_items root_path ignore_dirs ignore_files))
  end.

Definition generate_tree_structure (root_path : Node) (ignore_dirs ignore_files : gset str)
    (max_depth current_depth : nat) : list str :=
  tree_lines ignore_dirs ignore_files (max_depth - current_depth) root_path.

(** *** Project names *)

(** The loop of [extract_project_name_from_path] over [reversed(parts)],
    left as soon as two components are collected. *)
Fixpoint collect_meaningful (parts_rev : list str) (meaningful_parts : list str)
  : list str :=
  match parts_rev with
  | [] => meaningful_parts
  | part :: rest =>
    let meaningful_parts :=
      if negb (startswith part (u ".")) && negb (str_in part [u "Code"; u "Markdown"])
      then meaningful_parts ++ [part] else meaningful_parts in
    if Nat.leb 2 (length meaningful_parts) then meaningful_parts
    else collect_meaningful rest meaningful_parts
  end.

Definition extract_project_name_from_path (path : Path) : str :=
  match collect_meaningful (rev path) [] with
  | name :: _ => name
  | [] => path_name path
  end.

(** [s] ends with an underscore followed by eight decimal digits, which
    is what [_\d{8}] matches at the end of [s]. *)
Definition ends_with_date (s : str) : bool :=
  let n := length s in
  Nat.leb 9 n
  && match drop (n - 9) s with
     | c :: digits => (c =? 95) && forallb is_decimal_digit digits
     | [] => false
     end.

(** [re.sub(r'_\d{8}$', '', name)]: [$] matches at the end of the name
    and also before a final line feed; [\d] matches the decimal digits of
    every script. *)
Definition normalize_project_name (name : str) : str :=
  let n := length name in
  if ends_with_date name then take (n - 9) name
  else
    match List.last name 0 with
    | 10 =>
      if ends_with_date (take (n - 1) name) then take (n - 10) name ++ [10]
      else name
    | _ => name
    end.

(** *** Project discovery *)

Context (config : Config).

(** The body of the loop of [_is_project_directory] over
    [path.rglob('*')]; it returns at the first file that qualifies. *)
Fixpoint scan_for_project_file (items : list Node) : bool :=
  match items with
  | [] => false
  | item :: rest =>
    if is_file item then
      let ext := lower (suffix (node_name item)) in
      let has_code_files := set_mem ext (code_extensions config) in
      let has_project_files :=
        negb has_code_files && set_mem ext (project_extensions config) in
      if has_code_files || has_project_files then true
      else scan_for_project_file rest
    else scan_for_project_file rest
  end.

Definition _is_project_directory (path : Node) : bool :=
  scan_for_project_file (rglob path).

(** A discovered directory: its components below the code directory and
    the directory itself.  The function is only called on directories. *)
Fixpoint _find_project_directories (base_parts : Path) (base_dir : Node)
  : list (Path * Node) :=
  if _is_project_directory base_dir then [(base_parts, base_dir)]
  else
    match base_dir with
    | File _ _ => []
    | Dir _ entries =>
      flat_map (fun subdir =>
        match subdir with
        | File _ _ => []
        | Dir subname _ =>
          if negb (should_ignore_dir subdir (ignore_dirs config)) then
            if _is_project_directory subdir
            then [(base_parts ++ [subname], subdir)]
            else _find_project_directories (base_parts ++ [subname]) subdir
          else []
        end) entries
    end.

(** The directories on which [_find_project_directories] is entered
    while it runs on [base_dir], in the order of the calls. *)
Fixpoint _find_project_directories_calls (base_parts : Path) (base_dir : Node)
  : list Path :=
  base_parts ::
  if _is_project_directory base_dir then []
  else
    match base_dir with
    | File _ _ => []
    | Dir _ entries =>
      flat_map (fun subdir =>
        match subdir with
        | File _ _ => []
        | Dir subname _ =>
          if negb (should_ignore_dir subdir (ignore_dirs config)) then
            if _is_project_directory subdir then []
            else _find_project_directories_calls (base_parts ++ [subname]) subdir
          else []
        end) entries
    end.

(** [code_dir] is what [root_path / code_base_dir] points at, [None]
    when it does not exist: [discover_projects] then raises
    [FileNotFoundError]; on a regular file [iterdir] raises
    [NotADirectoryError]. *)
Definition discover_projects (code_dir : option Node)
  : PyError + list (Path * Node) :=
  match code_dir with
  | None => inl FileNotFoundError
  | Some (File _ _) => inl NotADirectoryError
  | Some (Dir _ entries) =>
    inr (flat_map (fun item =>
           if is_dir item && negb (should_ignore_dir item (ignore_dirs config))
           then _find_project_directories [node_name item] item
           else [])
         entries)
  end.

Definition discover_projects_calls (code_dir : Node) : list Path :=
  flat_map (fun item =>
      if is_dir item && negb (should_ignore_dir item (ignore_dirs config))
      then _find_project_directories_calls [node_name item] item
      else [])
    (iterdir code_dir).

(** *** Project analysis *)

Record FileStats := {
  code_files : nat;
  header_files : nat;
  project_files : nat;
  other_files : nat;
  total_size : Z
}.

Definition datetime := Z.

Record ProjectInfo := {
  name : str;
  source_path : Path;
  target_path : Path;
  generated_time : datetime;
  stats : FileStats
}.

(** [FileStats()] *)
Definition empty_stats : FileStats :=
  {| code_files := 0; header_files := 0; project_files := 0; other_files := 0;
     total_size := 0 |}.

Definition header_extensions : list str := [u ".h"; u ".hpp"; u ".hh"].

(** One turn of the loop of [analyze_project] over [rglob('*')]. *)
Definition analyze_step (stats : FileStats) (item : Node) : FileStats :=
  if is_file item && negb (should_ignore_file item (ignore_files config)) then
    let total := (total_size stats + file_size item)%Z in
    let ext := lower (suffix (node_name item)) in
    if set_mem ext (code_extensions config) then
      if str_in ext header_extensions
      then {| code_files := code_files stats;
              header_files := S (header_files stats);
              project_files := project_files stats;
              other_files := other_files stats;
              total_size := total |}
      else {| code_files := S (code_files stats);
              header_files := header_files stats;
              project_files := project_files stats;
              other_files := other_files stats;
              total_size := total |}
    else if set_mem ext (project_extensions config)
    then {| code_files := code_files stats;
            header_files := header_files stats;
            project_files := S (project_files stats);
            other_files := other_files stats;
            total_size := total |}
    else {| code_files := code_files stats;
            header_files := header_files stats;
            project_files := project_files stats;
            other_files := S (other_files stats);
            total_size := total |}
  else stats.

(** [root_path] is the working directory, [now] the value of
    [datetime.now()]. *)
Definition analyze_project (root_path : Path) (now : datetime)
    (project_parts : Path) (project_path : Node) : ProjectInfo :=
  let stats := foldl analyze_step empty_stats (rglob project_path) in
  let project_name := extract_project_name_from_path project_parts in
  let normalized_name := normalize_project_name project_name in
  let target_file := root_path ++ markdown_base_dir config ++ [normalized_name ++ u ".md"] in
  {| name := project_name;
     source_path := project_parts;
     target_path := target_file;
     generated_time := now;
     stats := stats |}.

(** *** The index *)

Context (strftime : datetime → str).

(** [md_filename] and the bullet of one project. *)
Definition md_filename (project : ProjectInfo) : str :=
  normalize_project_name (name project) ++ u ".md".

Definition index_bullet (project : ProjectInfo) : str :=
  u "- [" ++ name project ++ u "](" ++ md_filename project ++ u ")".

Definition name_leb (p q : ProjectInfo) : bool := str_leb (name p) (name q).

Definition index_lines (now : datetime) (projects : list ProjectInfo) : list str :=
  let lines := [] in
  let lines := lines ++ [u "# Code2Markdown 项目索引"] in
  let lines := lines ++ [u ""] in
  let lines := lines ++ [u "**生成时间**: " ++ strftime now] in
  let lines := lines ++ [u "**项目总数**: " ++ str_of_nat (length projects)] in
  let lines := lines ++ [u ""] in
  match projects with
  | [] => lines
  | _ :: _ =>
    let lines := lines ++ [u "## 项目列表"] in
    let lines := lines ++ [u ""] in
    let lines :=
      foldl (fun lines project => lines ++ [index_bullet project])
            lines (py_sorted name_leb projects) in
    lines ++ [u ""]
  end.

(** [generate_index] writes one file: its path and its text. *)
Definition generate_index (root_path : Path) (now : datetime)
    (projects : list ProjectInfo) : Path * str :=
  let markdown_dir := root_path ++ markdown_base_dir config in
  let index_path := markdown_dir ++ [u "INDEX.md"] in
  (index_path, join [10] (index_lines now projects)).
End Converter.

(** ** The content reader (utils.py) *)

(** The character class of the [re.sub] in [clean_text_content]:
    [[\x00-\x08\x0B-\x0C\x0E-\x1F\x7F-\x9F]]. *)
Definition in_removed_class (c : N) : bool :=
  (c <=? 0x08)
  || ((0x0B <=? c) && (c <=? 0x0C))
  || ((0x0E <=? c) && (c <=? 0x1F))
  || ((0x7F <=? c) && (c <=? 0x9F)).

(** A [dict] keeps the position of the first insertion of a key and the
    value of the last one. *)
Fixpoint dict_set (d : list (str * str)) (k v : str) : list (str * str) :=
  match d with
  | [] => [(k, v)]
  | (k', v') :: rest =>
    if str_eqb k k' then (k', v) :: rest else (k', v') :: dict_set rest k v
  end.

Definition dict_literal (items : list (str * str)) : list (str * str) :=
  foldl (fun d kv => dict_set d kv.1 kv.2) [] items.

(** The literal of the source; its third and fourth keys are the same
    code point U+06B2. *)
Definition replacements : list (str * str) := Eval vm_compute in
    dict_literal
      [(u "ƣ", u "函数名：");
       (u "ܣ", u "功能：");
       (u "ڲ", u "参数：");
       (u "ڲ", u "返回值：")].

Definition clean_text_content (content : str) : str :=
  match content with
  | [] => content
  | _ :: _ =>
    let content := filter (fun c => in_removed_class c = false) content in
    foldl (fun content kv => replace kv.1 kv.2 content) content replacements
  end.

(** What the operating system answers for one file: the result of [stat]
    (a size, or the message of the [OSError]), of a strict read in a given
    encoding, and of the final read with [errors='ignore']. *)
Inductive Encoding := utf_8 | gbk | gb2312 | utf_16 | latin1.

Inductive StrictRead :=
| Decoded (content : str)
| RaisesUnicodeError
| RaisesOSError (message : str).

Record OsFile := {
  os_stat : Z + str;
  os_read_strict : Encoding → StrictRead;
  os_read_ignore : str + str
}.

(** The calls made to the operating system. *)
Inductive FsCall :=
| CallStat
| CallOpenStrict (encoding : Encoding)
| CallOpenIgnore.

(** [get_file_info(p)['size']]: 0 when [stat] raises. *)
Definition get_file_info_size (f : OsFile) : Z :=
  match os_stat f with inl size => size | inr _ => 0%Z end.

Definition too_large_notice (size : Z) : str :=
  u "[文件过大 (" ++ format_file_size size ++ u "), 跳过显示内容]".

Definition unreadable_notice (message : str) : str :=
  u "[无法读取文件: " ++ message ++ u "]".

(** The loop over [encodings]: the text returned by the first encoding
    that decodes, or the [OSError] that ends the function, or [None] when
    every encoding raised a [UnicodeError]. *)
Fixpoint try_encodings (f : OsFile) (encodings : list Encoding)
  : option (str + str) * list FsCall :=
  match encodings with
  | [] => (None, [])
  | encoding :: rest =>
    match os_read_strict f encoding with
    | Decoded content =>
      (Some (inl (clean_text_content content)), [CallOpenStrict encoding])
    | RaisesOSError message => (Some (inr message), [CallOpenStrict encoding])
    | RaisesUnicodeError =>
      let '(result, calls) := try_encodings f rest in
      (result, CallOpenStrict encoding :: calls)
    end
  end.

(** The returned text and the calls made, in order. *)
Definition read_file_safely (f : OsFile) (max_size : Z) : str * list FsCall :=
  let size := get_file_info_size f in
  if (max_size <? size)%Z then (too_large_notice size, [CallStat])
  else
    let encodings := [utf_8; gbk; gb2312; utf_16; latin1] in
    match try_encodings f encodings with
    | (Some (inl content), calls) => (content, CallStat :: calls)
    | (Some (inr message), calls) => (unreadable_notice message, CallStat :: calls)
    | (None, calls) =>
      match os_read_ignore f with
      | inl content => (clean_text_content content, CallStat :: calls ++ [CallOpenIgnore])
      | inr message => (unreadable_notice message, CallStat :: calls ++ [CallOpenIgnore])
      end
    end.

Definition opens_file (c : FsCall) : bool :=
  match c with CallStat => false | _ => true end.

(** Both reads open the file with [open(file_path, 'r', encoding=...)]:
    in text mode and with the default [newline=None], so that [f.read()]
    returns the decoded text with every carriage return followed by a
    line feed, and every other carriage return, turned into one line
    feed. *)
Fixpoint universal_newlines (decoded : str) : str :=
  match decoded with
  | [] => []
  | c :: rest =>
    if c =? 13 then
      10 :: match rest with
            | [] => []
            | d :: rest' =>
              if d =? 10 then universal_newlines rest' else universal_newlines rest
            end
    else c :: universal_newlines rest
  end.

(** The answers of a file opened in text mode, from what the codecs
    decode of its bytes. *)
Definition text_mode (decoder : OsFile) : OsFile :=
  {| os_stat := os_stat decoder;
     os_read_strict encoding :=
       match os_read_strict decoder encoding with
       | Decoded decoded => Decoded (universal_newlines decoded)
       | RaisesUnicodeError => RaisesUnicodeError
       | RaisesOSError message => RaisesOSError message
       end;
     os_read_ignore :=
       match os_read_ignore decoder with
       | inl decoded => inl (universal_newlines decoded)
       | inr message => inr message
       end |}.

(** ** The orchestrator (code2md.py)

    [convert_project] and [convert_all_projects] run steps that may raise.
    A computation takes the state of the world and returns an exception or
    a value, with the new state; what is printed is kept in the state.
    The steps of one project (analysis, creation of the output directory,
    rendering, writing) and the discovery are arbitrary computations. *)

Section Orchestrator.
Context {Exception World : Type}.

Inductive Message :=
| MsgConverting (project_path : Path)
| MsgConverted (target : Path)
| MsgFailed (project_path : Path) (e : Exception)
| MsgNoProjects
| MsgFound (count : nat).

Record State := { world : World; console : list Message }.

Definition M (A : Type) : Type := State → (Exception + A) * State.

Definition ret {A} (a : A) : M A := fun s => (inr a, s).

Definition bind {A B} (m : M A) (k : A → M B) : M B :=
  fun s => match m s with
           | (inl e, s') => (inl e, s')
           | (inr a, s') => k a s'
           end.

Definition try_except {A} (body : M A) (handler : Exception → M A) : M A :=
  fun s => match body s with
           | (inl e, s') => handler e s'
           | (inr a, s') => (inr a, s')
           end.

Definition print (m : Message) : M unit :=
  fun s => (inr tt, {| world := world s; console := console s ++ [m] |}).

(** A step that acts on the world only. *)
Definition lift {A} (step : World → (Exception + A) * World) : M A :=
  fun s => let '(r, w) := step (world s) in
           (r, {| world := w; console := console s |}).

Local Notation "'let!' x ':=' m 'in' k" := (bind m (fun x => k))
  (at level 10, x name, m at level 100, k at level 200, only parsing).

Context (analyze_project_step : Path → World → (Exception + ProjectInfo) * World)
        (ensure_directory : Path → World → (Exception + unit) * World)
        (_generate_markdown : ProjectInfo → World → (Exception + str) * World)
        (write_text : Path → str → World → (Exception + unit) * World)
        (discover_projects_step : World → (Exception + list Path) * World).

(** [path.parent] *)
Definition path_parent (path : Path) : Path := removelast path.

Definition convert_project (project_path : Path) : M bool :=
  try_except
    (let! _ := print (MsgConverting project_path) in
     let! project_info := lift (analyze_project_step project_path) in
     let! _ := lift (ensure_directory (path_parent (target_path project_info))) in
     let! markdown_content := lift (_generate_markdown project_info) in
     let! _ := lift (write_text (target_path project_info) markdown_content) in
     let! _ := print (MsgConverted (target_path project_info)) in
     ret true)
    (fun e => let! _ := print (MsgFailed project_path e) in ret false).

(** The [for] loop of [convert_all_projects]. *)
Fixpoint convert_each (projects : list Path) (success_count : nat) : M nat :=
  match projects with
  | [] => ret success_count
  | project_path :: rest =>
    let! ok := convert_project project_path in
    convert_each rest (if ok then S success_count else success_count)
  end.

Definition convert_all_projects : M (nat * nat) :=
  let! projects := lift discover_projects_step in
  match projects with
  | [] => let! _ := print MsgNoProjects in ret (0, 0)%nat
  | _ :: _ =>
    let! _ := print (MsgFound (length projects)) in
    let total_count := length projects in
    let! success_count := convert_each projects 0%nat in
    ret (success_count, total_count)
  end.
End Orchestrator.

(** ** Notions used to state the properties *)

(** [inside e d]: [e] is an entry of the directory [d] or of a directory
    below it, whatever the names of the directories on the way. *)
Inductive inside (e : Node) : Node → Prop :=
| inside_entry name entries :
    e ∈ entries → inside e (Dir name entries)
| inside_below name entries sub :
    sub ∈ entries → inside e sub → inside e (Dir name entries).

Section Specification.
Context (fnmatch : str → str → bool) (lower : str → str) (config : Config).

(** A file whose lower-cased extension is a code or a project
    extension. *)
Definition qualifies (item : Node) : bool :=
  is_file item
  && (set_mem (lower (suffix (node_name item))) (code_extensions config)
      || set_mem (lower (suffix (node_name item))) (project_extensions config)).

(** The classifier in the words of the specification: the search for a
    qualifying file does not enter a directory whose name is in the
    ignore set. *)
Fixpoint is_project_excluding_ignored (path : Node) : bool :=
  match path with
  | File _ _ => false
  | Dir _ entries =>
    existsb (fun item =>
               match item with
               | File _ _ => qualifies item
               | Dir _ _ =>
                 negb (should_ignore_dir item (ignore_dirs config))
                 && is_project_excluding_ignored item
               end) entries
  end.

(** The files over which [analyze_project] accumulates. *)
Definition retained (item : Node) : bool :=
  is_file item && negb (should_ignore_file fnmatch item (ignore_files config)).
End Specification.

(** The largest index of a unit in which [n] bytes are at least 1. *)
Definition largest_unit (n : Z) : nat :=
  if (1024 ^ 3 <=? n)%Z then 3
  else if (1024 ^ 2 <=? n)%Z then 2
  else if (1024 <=? n)%Z then 1
  else 0.

(** The integer nearest to [10 * num / den], ties to even. *)
Definition nearest_tenths (num den : Z) : Z :=
  let q := (10 * num / den)%Z in
  let r := ((10 * num) mod den)%Z in
  if (den <? 2 * r)%Z || ((2 * r =? den)%Z && Z.odd q) then (q + 1)%Z else q.

(** The size text in the words of the specification. *)
Definition format_size_spec (n : Z) : str :=
  if (n =? 0)%Z then u "0 B"
  else
    let i := largest_unit n in
    match i with
    | O => str_of_Z n ++ u " B"
    | S _ =>
      let t := nearest_tenths n (1024 ^ Z.of_nat i) in
      str_of_Z (t / 10) ++ [46] ++ str_of_Z (t mod 10) ++ u " " ++ nth i size_names []
    end.

(** C0 and C1 control characters, with DEL. *)
Definition is_control (c : N) : bool :=
  (c <=? 0x1F) || ((0x7F <=? c) && (c <=? 0x9F)).

(** A line of a rendered tree that lists an entry of the rendered
    directory itself: it starts with a connector, whereas the lines of a
    sub-directory start with a continuation prefix. *)
Definition is_entry_line (line : str) : bool :=
  match line with
  | c :: _ => (c =? 0x251C) || (c =? 0x2514)
  | [] => false
  end.

(** The entry lines of a level, for its entries in the order shown. *)
Fixpoint entry_lines (items : list (Node * bool)) : list str :=
  match items with
  | [] => []
  | x :: rest =>
    ((match rest with [] => u "└── " | _ => u "├── " end)
       ++ node_name x.1 ++ (if x.2 then u "/" else []))
    :: entry_lines rest
  end.

(** Directories first, then the lower-cased names in increasing order. *)
Definition dirs_first_then_name (lower : str → str) (x y : Node * bool) : Prop :=
  (x.2 = true ∧ y.2 = false)
  ∨ (x.2 = y.2 ∧ str_leb (lower (node_name x.1)) (lower (node_name y.1)) = true).

(** [s] occurs in [t]. *)
Definition occurs_in (s t : str) : Prop := ∃ before after, t = before ++ s ++ after.

(** Deciding that a string does not occur in another. *)
Fixpoint occursb (s t : str) : bool :=
  startswith t s || match t with [] => false | _ :: t' => occursb s t' end.

(** What the sanitizer does to one code point: a control character other
    than tab, line feed and carriage return disappears, a key of the
    replacement table becomes its label, any other code point stays. *)
Definition sanitize_code_point (c : N) : str :=
  if is_control c && negb ((c =? 9) || (c =? 10) || (c =? 13)) then []
  else if c =? 0x01A3 then u "函数名："
  else if c =? 0x0723 then u "功能："
  else if c =? 0x06B2 then u "返回值："
  else [c].

(** The projects whose conversion was started, as the console shows
    them. *)
Definition attempted {Exception : Type} (console : list (@Message Exception))
  : list Path :=
  omap (λ m, match m with MsgConverting project_path => Some project_path
                     | _ => None end) console.

(** A message that reports a finished conversion. *)
Definition is_converted {Exception : Type} (m : @Message Exception) : bool :=
  match m with MsgConverted _ => true | _ => false end.

Section ConversionOutcomes.
Context {Exception World : Type}.
Context (analyze_project_step : Path → World → (Exception + ProjectInfo) * World)
        (ensure_directory : Path → World → (Exception + unit) * World)
        (_generate_markdown : ProjectInfo → World → (Exception + str) * World)
        (write_text : Path → str → World → (Exception + unit) * World).

(** The conversion of a project succeeds in the world [w]: the analysis,
    the creation of the output directory, the rendering and the writing,
    run one after the other from [w], all return. *)
Definition conversion_succeeds (project_path : Path) (w : World) : bool :=
  match analyze_project_step project_path w with
  | (inl _, _) => false
  | (inr project_info, w1) =>
    match ensure_directory (path_parent (target_path project_info)) w1 with
    | (inl _, _) => false
    | (inr _, w2) =>
      match _generate_markdown project_info w2 with
      | (inl _, _) => false
      | (inr markdown_content, w3) =>
        match write_text (target_path project_info) markdown_content w3 with
        | (inl _, _) => false
        | (inr _, _) => true
        end
      end
    end
  end.

(** What [convert_project] returns for each project of a list, when the
    projects are converted one after the other from the state [s]. *)
Fixpoint conversion_outcomes (projects : list Path) (s : @State Exception World)
  : list bool :=
  match projects with
  | [] => []
  | project_path :: rest =>
    match convert_project analyze_project_step ensure_directory
            _generate_markdown write_text project_path s with
    | (inr ok, s') => ok :: conversion_outcomes rest s'
    | (inl _, _) => []
    end
  end.
End ConversionOutcomes.

(** A small world on which the orchestrator can be run: the world is
    the list of the files written, exceptions are their messages, and the
    analysis of a project named [broken] raises. *)
Definition demo_analyze (project_path : Path) (w : list (Path * str))
  : (str + ProjectInfo) * list (Path * str) :=
  if str_eqb (path_name project_path) (u "broken")
  then (inl (u "PermissionError"), w)
  else (inr {| name := path_name project_path;
               source_path := project_path;
               target_path := [u "Markdown"; path_name project_path ++ u ".md"];
               generated_time := 0%Z;
               stats := empty_stats |}, w).

Definition demo_ensure_directory (path : Path) (w : list (Path * str))
  : (str + unit) * list (Path * str) := (inr tt, w).

Definition demo_generate_markdown (project_info : ProjectInfo) (w : list (Path * str))
  : (str + str) * list (Path * str) := (inr (u "# " ++ name project_info), w).

Definition demo_write_text (path : Path) (text : str) (w : list (Path * str))
  : (str + unit) * list (Path * str) := (inr tt, w ++ [(path, text)]).

Definition demo_discover (w : list (Path * str))
  : (str + list Path) * list (Path * str) :=
  (inr [[u "Code"; u "broken"]; [u "Code"; u "good"]], w).

Definition demo_start : @State str (list (Path * str)) :=
  {| world := []; console := [] |}.

(** The bucketing rule in the words of the specification. *)
Inductive Bucket := CodeBucket | HeaderBucket | ProjectBucket | OtherBucket.

Definition bucket_eqb (a b : Bucket) : bool :=
  match a, b with
  | CodeBucket, CodeBucket | HeaderBucket, HeaderBucket
  | ProjectBucket, ProjectBucket | OtherBucket, OtherBucket => true
  | _, _ => false
  end.

Definition bucket_of_extension (config : Config) (ext : str) : Bucket :=
  if set_mem ext (code_extensions config) then
    if str_in ext [u ".h"; u ".hpp"; u ".hh"] then HeaderBucket else CodeBucket
  else if set_mem ext (project_extensions config) then ProjectBucket
  else OtherBucket.

(** The number of extensions of a list that fall in a bucket. *)
Definition count_bucket (config : Config) (b : Bucket) (exts : list str) : nat :=
  length (List.filter (λ ext, bucket_eqb (bucket_of_extension config ext) b) exts).

(** The configuration with another set of ignored directories. *)
Definition with_ignore_dirs (config : Config) (dirs : gset str) : Config :=
  {| code_base_dir := code_base_dir config;
     markdown_base_dir := markdown_base_dir config;
     code_extensions := code_extensions config;
     project_extensions := project_extensions config;
     ignore_files := ignore_files config;
     ignore_dirs := dirs;
     max_file_size := max_file_size config;
     include_file_content := include_file_content config;
     include_file_stats := include_file_stats config;
     include_project_structure := include_project_structure config |}.

(** The sum of the sizes of a list of files. *)
Definition sum_sizes (files : list Node) : Z :=
  foldr Z.add 0%Z (map file_size files).

(** ** Further notions and functions *)

(** [LANGUAGE_MAPPING] (config.py); its keys are pairwise different. *)
Definition LANGUAGE_MAPPING : gmap str str :=
  list_to_map
    [(u ".c", u "c"); (u ".h", u "c"); (u ".cpp", u "cpp"); (u ".hpp", u "cpp");
     (u ".cc", u "cpp"); (u ".cxx", u "cpp"); (u ".py", u "python");
     (u ".java", u "java"); (u ".js", u "javascript"); (u ".ts", u "typescript");
     (u ".cs", u "csharp"); (u ".go", u "go"); (u ".rs", u "rust");
     (u ".php", u "php"); (u ".rb", u "ruby"); (u ".swift", u "swift");
     (u ".kt", u "kotlin"); (u ".scala", u "scala"); (u ".clj", u "clojure");
     (u ".hs", u "haskell"); (u ".ml", u "ocaml"); (u ".asm", u "assembly");
     (u ".s", u "assembly"); (u ".a51", u "assembly")].

(** [LANGUAGE_MAPPING.get(ext.lower(), 'text')] *)
Definition get_language_for_extension (lower : str → str) (ext : str) : str :=
  default (u "text") (LANGUAGE_MAPPING !! lower ext).

(** A path component that [extract_project_name_from_path] accepts as a
    name: it does not start with a dot and is neither [Code] nor
    [Markdown]. *)
Definition is_meaningful_part (part : str) : bool :=
  negb (startswith part (u ".")) && negb (str_in part [u "Code"; u "Markdown"]).

(** [name] ends with a date stamp: an underscore and eight decimal
    digits, of any script as [\d] has it. *)
Definition has_date_suffix (name : str) : Prop :=
  ∃ base digits,
    name = base ++ 95 :: digits
    ∧ length digits = 8%nat
    ∧ forallb is_decimal_digit digits = true.


(** The file for which [stat] answers the size [size] and every read
    answers as for [f]. *)
Definition with_stat_size (f : OsFile) (size : Z) : OsFile :=
  {| os_stat := inl size;
     os_read_strict := os_read_strict f;
     os_read_ignore := os_read_ignore f |}.


(** [path.rglob('*')] with the path of each entry relative to [path],
    which is what [relative_to(project_root)] gives for it. *)
Fixpoint rglob_from (parent : Path) (p : Node) : list (Path * Node) :=
  match p with
  | File _ _ => []
  | Dir _ entries =>
    map (λ e, (parent ++ [node_name e], e)) entries
    ++ flat_map (λ e, rglob_from (parent ++ [node_name e]) e) entries
  end.

(** *** The document renderer (code2md.py)

    [upper], [isspace], [strftime] and [str(path)] are library functions.
    The reads of a file, given by its path relative to the project, are
    answered by [read_strict] and [read_ignore], its modification time by
    [modified]; [stat] answers the size that the tree holds. *)

(** The accesses to the file system made while a document is rendered:
    the queries [path.exists()], [path.is_dir()] and [path.is_file()],
    the listings [path.iterdir()] and [path.rglob('*')], and the calls
    made by [get_file_info] and [read_file_safely]. *)
Inductive Access :=
| AccessExists
| AccessIsDir
| AccessIsFile
| AccessIterdir
| AccessRglob
| AccessContent (call : FsCall).

Definition is_content_access (access : Access) : bool :=
  match access with AccessContent _ => true | _ => false end.

Section Renderer.
Context (fnmatch : str → str → bool) (lower upper : str → str) (isspace : N → bool).
Context (strftime : datetime → str) (path_str : Path → str).
Context (config : Config).
Context (read_strict : Path → Encoding → StrictRead) (read_ignore : Path → str + str).
Context (modified : Path → datetime).

(** The accesses of [generate_tree_structure], in order, with the path
    they are made on; [parent] is the path of [root_path] relative to
    the project.  On every entry of the directory [is_dir()] is asked,
    and [is_file()] as well unless the entry is a directory that is not
    ignored; the kind of an item is then kept beside it, and the
    directories among the items are walked in the sorted order. *)
Fixpoint tree_accesses (ignore_dirs ignore_files : gset str) (depth_left : nat)
    (parent : Path) (root_path : Node) : list (Path * Access) :=
  match depth_left with
  | O => []
  | S depth_left' =>
    [(parent, AccessExists); (parent, AccessIsDir)]
    ++ (if is_dir root_path then
          (parent, AccessIterdir)
          :: flat_map
               (λ item,
                  let item_path := parent ++ [node_name item] in
                  (item_path, AccessIsDir)
                  :: if is_dir item && negb (should_ignore_dir item ignore_dirs)
                     then []
                     else [(item_path, AccessIsFile)])
               (iterdir root_path)
        else [])
    ++ flat_map
         (λ x : Node * bool,
            if x.2
            then tree_accesses ignore_dirs ignore_files depth_left'
                   (parent ++ [node_name x.1]) x.1
            else [])
         (py_sorted (item_leb lower)
            (visible_items fnmatch root_path ignore_dirs ignore_files))
  end.

Definition os_file_at (relative_path : Path) (file : Node) : OsFile :=
  {| os_stat := inl (file_size file);
     os_read_strict := read_strict relative_path;
     os_read_ignore := read_ignore relative_path |}.

(** The lines of one file and the calls made for it: the [stat] of
    [get_file_info], then those of [read_file_safely]. *)
Definition _generate_file_section (file_path : Path * Node) : list str * list FsCall :=
  let relative_path := file_path.1 in
  let file_name := node_name file_path.2 in
  let f := os_file_at relative_path file_path.2 in
  let size := get_file_info_size f in
  let lines :=
    [u "## " ++ file_name;
     [];
     u "**文件路径**: `" ++ path_str relative_path ++ u "`  ";
     u "**文件类型**: " ++ upper (get_language_for_extension lower (suffix file_name))
       ++ u "  ";
     u "**文件大小**: " ++ format_file_size size ++ u "  ";
     u "**最后修改**: " ++ strftime (modified relative_path) ++ u "  ";
     []] in
  let '(content, calls) := read_file_safely f (max_file_size config) in
  (match content with
   | [] => lines
   | _ :: _ =>
     let language := get_language_for_extension lower (suffix file_name) in
     lines ++ [u "### 文件内容"; []; u "```" ++ language; content; u "```"; []]
   end,
   CallStat :: calls).

(** The test of the loop that collects [code_files]. *)
Definition is_code_file (item : Node) : bool :=
  is_file item
  && set_mem (lower (suffix (node_name item))) (code_extensions config)
  && negb (should_ignore_file fnmatch item (ignore_files config)).

(** [x.name.lower()] as sort key. *)
Definition file_name_leb (x y : Path * Node) : bool :=
  str_leb (lower (node_name x.2)) (lower (node_name y.2)).

(** [code_files] after the sort. *)
Definition sorted_code_files (project_path : Node) : list (Path * Node) :=
  py_sorted file_name_leb
    (List.filter (λ item, is_code_file item.2) (rglob_from [] project_path)).

(** The lines of all sections, and the accesses made with the path they
    are made on: the listing of the project, [is_file()] on each of its
    items, then the calls of each section. *)
Definition _generate_file_sections (project_path : Node)
  : list str * list (Path * Access) :=
  foldl (λ sections file_path,
           let '(lines, calls) := _generate_file_section file_path in
           (sections.1 ++ lines,
            sections.2 ++ map (λ c, (file_path.1, AccessContent c)) calls))
        ([],
         ([], AccessRglob)
         :: map (λ item, (item.1, AccessIsFile)) (rglob_from [] project_path))
        (sorted_code_files project_path).

(** [bool(line.strip())]: the line holds a character that is not
    whitespace. *)
Definition has_text (line : str) : bool := existsb (λ c, negb (isspace c)) line.

(** The lines that [_generate_markdown] joins, and the accesses made in
    order: those of the tree walk, then those of the file sections;
    [project_path] is what [project_info.source_path] points at. *)
Definition markdown_lines (project_info : ProjectInfo) (project_path : Node)
  : list str * list (Path * Access) :=
  let lines :=
    [u "# " ++ name project_info;
     [];
     u "## 项目信息";
     u "- **项目名称**: " ++ name project_info;
     u "- **生成时间**: " ++ strftime (generated_time project_info);
     u "- **项目路径**: `" ++ path_str (source_path project_info) ++ u "`";
     []] in
  let lines :=
    if include_project_structure config then
      let tree_lines :=
        generate_tree_structure fnmatch lower project_path (ignore_dirs config)
          (ignore_files config) 10 0 in
      lines ++ [u "## 项目结构"; []; u "```"]
      ++ match tree_lines with
         | [] => []
         | _ :: _ => (name project_info ++ u "/") :: List.filter has_text tree_lines
         end
      ++ [u "```"; []]
    else lines in
  let accesses :=
    if include_project_structure config then
      tree_accesses (ignore_dirs config) (ignore_files config) 10 [] project_path
    else [] in
  let lines :=
    if include_file_stats config then
      lines
      ++ [u "## 文件统计";
          u "- 源代码文件: " ++ str_of_nat (code_files (stats project_info));
          u "- 头文件: " ++ str_of_nat (header_files (stats project_info));
          u "- 项目文件: " ++ str_of_nat (project_files (stats project_info));
          u "- 其他文件: " ++ str_of_nat (other_files (stats project_info));
          []]
    else lines in
  if include_file_content config then
    let '(file_sections, calls) := _generate_file_sections project_path in
    (lines ++ file_sections, accesses ++ calls)
  else (lines, accesses).

Definition _generate_markdown (project_info : ProjectInfo) (project_path : Node)
  : str * list (Path * Access) :=
  let '(lines, accesses) := markdown_lines project_info project_path in
  (join [10] lines, accesses).
End Renderer.

(** The reference instances of [str.upper], [str.isspace] and
    [str(path)] on a POSIX system. *)
Definition ascii_upper (s : str) : str :=
  map (λ c, if (97 <=? c) && (c <=? 122) then c - 32 else c) s.

Definition py_isspace (c : N) : bool :=
  ((9 <=? c) && (c <=? 13)) || ((28 <=? c) && (c <=? 32))
  || (c =? 0x85) || (c =? 0xA0) || (c =? 0x1680)
  || ((0x2000 <=? c) && (c <=? 0x200A))
  || (c =? 0x2028) || (c =? 0x2029) || (c =? 0x202F) || (c =? 0x205F)
  || (c =? 0x3000).

Definition posix_path_str (path : Path) : str :=
  match path with
  | [47] :: rest => 47 :: join [47] rest
  | _ => join [47] path
  end.


(** *** The entry point (main.py)

    [main] prints on the same screen as the converter; what it prints
    itself is kept in a second list beside the world. *)

Section MainProgram.
Context {Exception World : Type}.

Inductive MainMessage :=
| MainBanner
| MainSeparator
| MainCodeDirMissing
| MainHint
| MainSummary (success_count total_count : nat)
| MainFailures (failed : nat)
| MainError (e : Exception).

Definition MainWorld : Type := World * list MainMessage.

(** A step of the converter, run in the world of [main]. *)
Definition on_world {A} (step : World → (Exception + A) * World)
  : MainWorld → (Exception + A) * MainWorld :=
  λ w, let '(r, w1) := step w.1 in (r, (w1, w.2)).

Definition say (m : MainMessage) : @M Exception MainWorld unit :=
  lift (λ w, (inr tt, (w.1, w.2 ++ [m]))).

Local Notation "'let!' x ':=' m 'in' k" := (bind m (fun x => k))
  (at level 10, x name, m at level 100, k at level 200, only parsing).

Context (code_dir_exists : World → bool)
        (analyze_project_step : Path → World → (Exception + ProjectInfo) * World)
        (ensure_directory : Path → World → (Exception + unit) * World)
        (render_step : ProjectInfo → World → (Exception + str) * World)
        (write_text : Path → str → World → (Exception + unit) * World)
        (discover_projects_step : World → (Exception + list Path) * World)
        (generate_index_step : list ProjectInfo → World → (Exception + unit) * World).

(** The loop that analyzes the projects again for the index. *)
Fixpoint analyze_all (paths : list Path) (projects : list ProjectInfo)
  : @M Exception MainWorld (list ProjectInfo) :=
  match paths with
  | [] => ret projects
  | project_path :: rest =>
    let! project_info := lift (on_world (analyze_project_step project_path)) in
    analyze_all rest (projects ++ [project_info])
  end.

(** [main()] of main.py; its value is the exit code. *)
Definition main : @M Exception MainWorld Z :=
  let! _ := say MainBanner in
  let! _ := say MainSeparator in
  try_except
    (let! present := lift (λ w, (inr (code_dir_exists w.1), w)) in
     if negb present then
       let! _ := say MainCodeDirMissing in
       let! _ := say MainHint in
       ret 1%Z
     else
       let! counts :=
         convert_all_projects
           (λ p, on_world (analyze_project_step p))
           (λ p, on_world (ensure_directory p))
           (λ i, on_world (render_step i))
           (λ p t, on_world (write_text p t))
           (on_world discover_projects_step) in
       let success_count := counts.1 in
       let total_count := counts.2 in
       let! _ :=
         (if Nat.ltb 0 success_count then
            let! paths := lift (on_world discover_projects_step) in
            let! projects := analyze_all paths [] in
            lift (on_world (generate_index_step projects))
          else ret tt) in
       let! _ := say MainSeparator in
       let! _ := say (MainSummary success_count total_count) in
       if Nat.ltb success_count total_count then
         let! _ := say (MainFailures (total_count - success_count)) in
         ret 1%Z
       else ret 0%Z)
    (λ e, let! _ := say (MainError e) in ret 1%Z).
End MainProgram.

(** A message that reports a failed conversion. *)
Definition is_failure {Exception : Type} (m : @Message Exception) : bool :=
  match m with MsgFailed _ _ => true | _ => false end.

(** * Properties *)

(** ** Decimal numerals *)

Lemma str_of_Z_digit (d : Z) :
  (0 ≤ d < 10)%Z → str_of_Z d = [48 + Z.to_N d].
Proof.
  intros Hd.
  assert (d = 0 ∨ d = 1 ∨ d = 2 ∨ d = 3 ∨ d = 4 ∨ d = 5 ∨ d = 6 ∨ d = 7
          ∨ d = 8 ∨ d = 9)%Z as Hcases by lia.
  repeat (destruct Hcases as [-> | Hcases]; [reflexivity |]).
  subst d. reflexivity.
Qed.

(** ** [format_file_size] *)

Lemma float_of_int_exact (n : Z) :
  (0 < n < 2 ^ 53)%Z → float_of_int n = Float n 0.
Proof.
  intros [Hpos Hlt]. unfold float_of_int.
  rewrite Z.abs_eq by lia.
  apply Z.log2_lt_pow2 in Hlt; [| exact Hpos].
  destruct (Z.leb_spec (Z.log2 n + 1) 53); [reflexivity | lia].
Qed.

Lemma float_of_int_large (n : Z) :
  (2 ^ 53 ≤ n)%Z → ∃ m, float_of_int n = Float m 0 ∧ (2 ^ 53 ≤ m)%Z.
Proof.
  intros Hn. unfold float_of_int.
  assert (0 < n)%Z as Hpos by (pose proof (Z.pow_pos_nonneg 2 53); lia).
  rewrite Z.abs_eq by lia.
  assert (53 ≤ Z.log2 n)%Z as Hlog by (apply Z.log2_le_pow2; lia).
  destruct (Z.leb_spec (Z.log2 n + 1) 53) as [Hle | _]; [lia |].
  set (e := (Z.log2 n + 1 - 53)%Z).
  assert (1 ≤ e)%Z as He by (unfold e; lia).
  eexists. split; [reflexivity |].
  rewrite Z.sgn_pos, Z.mul_1_l by exact Hpos.
  rewrite Z.shiftl_mul_pow2 by lia.
  set (q := Z.shiftr n e).
  assert (2 ^ 52 ≤ q)%Z as Hq.
  { unfold q. rewrite Z.shiftr_div_pow2 by lia.
    destruct (Z.log2_spec n Hpos) as [Hlow _].
    assert (2 ^ Z.log2 n = 2 ^ 52 * 2 ^ e)%Z as Hsplit.
    { rewrite <- Z.pow_add_r by lia. f_equal. unfold e. lia. }
    rewrite Hsplit in Hlow.
    assert (0 < 2 ^ e)%Z as Hpe by (apply Z.pow_pos_nonneg; lia).
    rewrite <- (Z.div_mul (2 ^ 52) (2 ^ e)) by lia.
    apply Z.div_le_mono; lia. }
  assert (2 ≤ 2 ^ e)%Z as Hpow.
  { change 2%Z with (2 ^ 1)%Z at 1. apply Z.pow_le_mono_r; lia. }
  match goal with
  | |- context [if ?c then _ else _] => destruct c
  end; change (2 ^ 53)%Z with (2 ^ 52 * 2)%Z; nia.
Qed.

Lemma largest_unit_large (m : Z) : (2 ^ 53 ≤ m)%Z → largest_unit m = 3%nat.
Proof.
  intros Hm. unfold largest_unit.
  destruct (Z.leb_spec (1024 ^ 3) m) as [_ | Hlt]; [reflexivity |].
  change (1024 ^ 3)%Z with 1073741824%Z in Hlt.
  change (2 ^ 53)%Z with 9007199254740992%Z in Hm. lia.
Qed.

Lemma float_of_int_unit (n : Z) :
  (0 < n)%Z →
  ∃ m, float_of_int n = Float m 0 ∧ (0 < m)%Z
       ∧ largest_unit m = largest_unit n ∧ (n < 2 ^ 53 → m = n)%Z.
Proof.
  intros Hpos. destruct (Z.lt_ge_cases n (2 ^ 53)) as [Hlt | Hge].
  - exists n. rewrite float_of_int_exact by lia. auto.
  - destruct (float_of_int_large n Hge) as (m & Hm & Hbig).
    exists m. split; [exact Hm |]. split.
    + change (2 ^ 53)%Z with 9007199254740992%Z in Hbig. lia.
    + split; [| lia]. by rewrite !largest_unit_large.
Qed.

Lemma size_loop_unit (m : Z) :
  (0 < m)%Z →
  size_loop 3 (Float m 0) 0
  = (Float m (10 * N.of_nat (largest_unit m)), largest_unit m).
Proof.
  intros Hpos. unfold largest_unit. cbn [size_loop].
  unfold float_ge_1024, float_div_1024. cbn [mant expo].
  change (1024 * 2 ^ Z.of_N 0)%Z with 1024%Z.
  change (1024 * 2 ^ Z.of_N (0 + 10))%Z with 1048576%Z.
  change (1024 * 2 ^ Z.of_N (0 + 10 + 10))%Z with 1073741824%Z.
  change (1024 ^ 3)%Z with 1073741824%Z.
  change (1024 ^ 2)%Z with 1048576%Z.
  destruct (Z.leb_spec 1024 m), (Z.leb_spec 1048576 m),
    (Z.leb_spec 1073741824 m); try lia; reflexivity.
Qed.

Lemma format_file_size_unfold (n m : Z) :
  (0 < n)%Z → float_of_int n = Float m 0 → (0 < m)%Z →
  format_file_size n
  = match largest_unit m with
    | O => str_of_Z m ++ u " B"
    | S _ =>
      format_1f (Float m (10 * N.of_nat (largest_unit m)))
        ++ u " " ++ nth (largest_unit m) size_names []
    end.
Proof.
  intros Hn Hfloat Hm. unfold format_file_size.
  destruct (Z.eqb_spec n 0) as [-> | _]; [lia |].
  change (length size_names - 1)%nat with 3%nat.
  rewrite Hfloat, size_loop_unit by exact Hm.
  destruct (largest_unit m) eqn:Hunit; [| reflexivity].
  unfold int_of_float. cbn [mant expo].
  change (2 ^ Z.of_N (10 * N.of_nat 0))%Z with 1%Z.
  by rewrite Z.quot_1_r.
Qed.

Lemma round_tenths_nonneg (x : float) : (0 ≤ round_tenths x)%Z.
Proof.
  unfold round_tenths.
  assert (0 < 2 ^ Z.of_N (expo x))%Z by (apply Z.pow_pos_nonneg; lia).
  assert (0 ≤ 10 * Z.abs (mant x) / 2 ^ Z.of_N (expo x))%Z
    by (apply Z.div_pos; lia).
  match goal with
  | |- context [if ?c then _ else _] => destruct c
  end; lia.
Qed.

Lemma format_1f_shape (x : float) :
  (0 ≤ mant x)%Z →
  ∃ whole d, (0 ≤ whole)%Z ∧ is_digit d = true
             ∧ format_1f x = str_of_Z whole ++ [46; d].
Proof.
  intros Hm. unfold format_1f.
  pose proof (round_tenths_nonneg x) as Ht.
  set (t := round_tenths x) in *.
  exists (t / 10)%Z, (48 + Z.to_N (t mod 10)).
  pose proof (Z.mod_pos_bound t 10 ltac:(lia)) as Hd.
  split; [apply Z.div_pos; lia |]. split.
  - unfold is_digit. apply andb_true_iff. split; apply N.leb_le; lia.
  - destruct (Z.ltb_spec (mant x) 0); [lia |].
    rewrite (str_of_Z_digit (t mod 10)) by exact Hd. reflexivity.
Qed.

Lemma round_tenths_exact (n : Z) (i : nat) :
  (0 ≤ n)%Z →
  round_tenths (Float n (10 * N.of_nat i)) = nearest_tenths n (1024 ^ Z.of_nat i).
Proof.
  intros Hn. unfold round_tenths, nearest_tenths. cbn [mant expo].
  rewrite Z.abs_eq by exact Hn.
  replace (2 ^ Z.of_N (10 * N.of_nat i))%Z with (1024 ^ Z.of_nat i)%Z; [reflexivity |].
  change 1024%Z with (2 ^ 10)%Z. rewrite <- Z.pow_mul_r by lia.
  f_equal. lia.
Qed.

Lemma largest_unit_spec (n : Z) :
  (0 < n)%Z →
  (largest_unit n ≤ 3)%nat
  ∧ (1024 ^ Z.of_nat (largest_unit n) ≤ n)%Z
  ∧ ((largest_unit n < 3)%nat → (n < 1024 ^ Z.of_nat (S (largest_unit n)))%Z).
Proof.
  intros Hn. unfold largest_unit.
  change (1024 ^ 3)%Z with 1073741824%Z.
  change (1024 ^ 2)%Z with 1048576%Z.
  destruct (Z.leb_spec 1073741824 n); [| destruct (Z.leb_spec 1048576 n);
    [| destruct (Z.leb_spec 1024 n)]];
    (split; [lia |]); (split; [| intros ?]);
    try first [ change (1024 ^ Z.of_nat 3)%Z with 1073741824%Z
              | change (1024 ^ Z.of_nat 2)%Z with 1048576%Z
              | change (1024 ^ Z.of_nat 1)%Z with 1024%Z
              | change (1024 ^ Z.of_nat 0)%Z with 1%Z ];
    lia.
Qed.

(** C9.  [format_file_size] writes 0 as "0 B", 999 as "999 B", 1024 as
    "1.0 KB" and 1536 as "1.5 KB".  For every positive byte count the
    text ends with the name of the largest unit among B, KB, MB, GB in
    which the count is at least 1; before it stands the count itself
    without decimals at the B scale, and a numeral with exactly one
    decimal digit otherwise.  Below 2^53 bytes that numeral is the count
    divided by the unit, rounded to the nearest tenth. *)
Theorem format_file_size_largest_unit :
  format_file_size 0 = u "0 B"
  ∧ format_file_size 999 = u "999 B"
  ∧ format_file_size 1024 = u "1.0 KB"
  ∧ format_file_size 1536 = u "1.5 KB"
  ∧ (∀ n : Z, (0 < n)%Z →
       (largest_unit n ≤ 3)%nat
       ∧ (1024 ^ Z.of_nat (largest_unit n) ≤ n)%Z
       ∧ ((largest_unit n < 3)%nat → (n < 1024 ^ Z.of_nat (S (largest_unit n)))%Z)
       ∧ ∃ body,
           format_file_size n = body ++ u " " ++ nth (largest_unit n) size_names []
           ∧ match largest_unit n with
             | O => body = str_of_Z n
             | S _ => ∃ whole d, (0 ≤ whole)%Z ∧ is_digit d = true
                                 ∧ body = str_of_Z whole ++ [46; d]
             end)
  ∧ (∀ n : Z, (0 < n < 2 ^ 53)%Z → format_file_size n = format_size_spec n).
Proof.
  do 4 (split; [vm_compute; reflexivity |]).
  split.
  - intros n Hn.
    destruct (largest_unit_spec n Hn) as (Hle & Hlow & Hup).
    repeat (split; [assumption |]).
    destruct (float_of_int_unit n Hn) as (m & Hfloat & Hm & Hunit & Hexact).
    rewrite (format_file_size_unfold n m Hn Hfloat Hm), Hunit.
    destruct (largest_unit n) as [| i] eqn:Hi.
    + exists (str_of_Z m). split; [reflexivity |].
      f_equal. apply Hexact.
      change (1024 ^ Z.of_nat 1)%Z with 1024%Z in Hup.
      change (2 ^ 53)%Z with 9007199254740992%Z. lia.
    + destruct (format_1f_shape (Float m (10 * N.of_nat (S i))))
        as (whole & d & Hwhole & Hd & Hbody); [cbn; lia |].
      exists (str_of_Z whole ++ [46; d]). split.
      * by rewrite Hbody.
      * by exists whole, d.
  - intros n [Hpos Hlt].
    rewrite (format_file_size_unfold n n Hpos) by (try apply float_of_int_exact; lia).
    unfold format_size_spec.
    destruct (Z.eqb_spec n 0) as [-> | _]; [lia |].
    destruct (largest_unit n) as [| i] eqn:Hi; [reflexivity |].
    unfold format_1f. rewrite round_tenths_exact by lia. cbn [mant].
    destruct (Z.ltb_spec n 0); [lia |].
    by rewrite <- !app_assoc.
Qed.

Lemma format_file_size_largest_unit_witness :
  (∃ body, format_file_size 1536 = body ++ u " " ++ nth (largest_unit 1536) size_names [])
  ∧ format_file_size 2000000 = format_size_spec 2000000.
Proof.
  destruct format_file_size_largest_unit as (_ & _ & _ & _ & Hshape & Hexact).
  split.
  - destruct (Hshape 1536%Z ltac:(lia)) as (_ & _ & _ & body & Hbody & _).
    by exists body.
  - apply Hexact. lia.
Defined.

(** ** Directory trees *)

Lemma Node_ind_nested (P : Node → Prop) :
  (∀ name size, P (File name size)) →
  (∀ name entries, Forall P entries → P (Dir name entries)) →
  ∀ p, P p.
Proof.
  intros Hfile Hdir. fix IH 1. intros [name size | name entries].
  - apply Hfile.
  - apply Hdir.
    induction entries as [| e rest IHrest]; constructor;
      [apply IH | exact IHrest].
Qed.

Lemma elem_of_flat_map {A B} (f : A → list B) (l : list A) (b : B) :
  b ∈ flat_map f l ↔ ∃ a, a ∈ l ∧ b ∈ f a.
Proof.
  rewrite list_elem_of_In, in_flat_map.
  split; intros (a & Ha & Hb); exists a;
    [rewrite !list_elem_of_In | rewrite <- !list_elem_of_In]; auto.
Qed.

Lemma flat_map_nil {A B} (f : A → list B) (l : list A) :
  (∀ a, a ∈ l → f a = []) → flat_map f l = [].
Proof.
  induction l as [| a l IH]; intros Hall; [reflexivity |].
  cbn. rewrite Hall by left. apply IH. intros a' Ha'. apply Hall. by right.
Qed.

Lemma rglob_inside (e d : Node) : e ∈ rglob d ↔ inside e d.
Proof.
  split.
  - revert e. induction d as [name size | name entries IH] using Node_ind_nested;
      intros e He; cbn in He.
    + by apply elem_of_nil in He.
    + apply elem_of_app in He as [He | He].
      * by apply inside_entry.
      * apply elem_of_flat_map in He as (sub & Hsub & He).
        apply inside_below with sub; [exact Hsub |].
        rewrite Forall_forall in IH. by apply IH.
  - induction 1 as [name entries He | name entries sub Hsub _ IH]; cbn;
      apply elem_of_app.
    + by left.
    + right. apply elem_of_flat_map. by exists sub.
Qed.

Lemma inside_trans (e s d : Node) : inside e s → inside s d → inside e d.
Proof.
  intros He Hs. induction Hs as [name entries Hs | name entries sub Hsub _ IH].
  - by apply inside_below with s.
  - apply inside_below with sub; [exact Hsub | exact IH].
Qed.

(** ** The project classifier *)

Section Classifier.
Context (lower : str → str) (config : Config).

Lemma scan_for_project_file_existsb (items : list Node) :
  scan_for_project_file lower config items = existsb (qualifies lower config) items.
Proof.
  induction items as [| item items IH]; [reflexivity |].
  cbn [scan_for_project_file existsb]. unfold qualifies at 1.
  destruct (is_file item); cbn [andb orb]; [| exact IH].
  destruct (set_mem _ (code_extensions config)); cbn [negb andb orb];
    [reflexivity |].
  destruct (set_mem _ (project_extensions config)); cbn [orb];
    [reflexivity | exact IH].
Qed.

Lemma is_project_directory_iff (path : Node) :
  _is_project_directory lower config path = true
  ↔ ∃ f, inside f path ∧ qualifies lower config f = true.
Proof.
  unfold _is_project_directory.
  rewrite scan_for_project_file_existsb, existsb_exists.
  split; intros (f & Hf & Hq); exists f; (split; [| exact Hq]).
  - apply rglob_inside. by apply list_elem_of_In.
  - apply list_elem_of_In. by apply rglob_inside.
Qed.

Lemma is_project_directory_below (sub path : Node) :
  inside sub path →
  _is_project_directory lower config path = false →
  _is_project_directory lower config sub = false.
Proof.
  intros Hsub Hpath.
  destruct (_is_project_directory lower config sub) eqn:Hs; [| reflexivity].
  apply is_project_directory_iff in Hs as (f & Hf & Hq).
  assert (_is_project_directory lower config path = true) as Hyes.
  { apply is_project_directory_iff. exists f. split; [| exact Hq].
    by apply inside_trans with sub. }
  congruence.
Qed.

(** C1, as the code has it.  For every directory, the classifier
    answers true exactly when the directory holds, at some depth, a file
    whose lower-cased extension is in the code-extension set or in the
    project-extension set; the search enters every sub-directory,
    whatever its name. *)
Theorem is_project_directory_searches_every_subtree (path : Node) :
  _is_project_directory lower config path = true
  ↔ ∃ f, inside f path
         ∧ is_file f = true
         ∧ (lower (suffix (node_name f)) ∈ code_extensions config
            ∨ lower (suffix (node_name f)) ∈ project_extensions config).
Proof.
  rewrite is_project_directory_iff.
  split; intros (f & Hf & Hq); exists f; (split; [exact Hf |]).
  - unfold qualifies, set_mem in Hq.
    apply andb_true_iff in Hq as [Hfile Hext].
    split; [exact Hfile |].
    apply orb_true_iff in Hext as [Hext | Hext];
      apply bool_decide_eq_true in Hext; auto.
  - destruct Hq as [Hfile Hext]. unfold qualifies, set_mem.
    rewrite Hfile. cbn [andb]. apply orb_true_iff.
    destruct Hext as [Hext | Hext]; [left | right];
      by apply bool_decide_eq_true.
Qed.
End Classifier.

(** C1, as stated, fails: a directory whose only source file lies in
    [node_modules] is classified as a project, although the search that
    leaves out ignored sub-directories finds no file. *)
Lemma is_project_directory_enters_ignored :
  let path := Dir (u "demo") [Dir (u "node_modules") [File (u "index.js") 120]] in
  ¬ (_is_project_directory ascii_lower default_config path = true
     ↔ is_project_excluding_ignored ascii_lower default_config path = true).
Proof.
  intros path [Hcode _].
  assert (_is_project_directory ascii_lower default_config path = true) as Hyes
    by (vm_compute; reflexivity).
  apply Hcode in Hyes. vm_compute in Hyes. discriminate.
Qed.

(** ** Project discovery *)

Section Discovery.
Context (lower : str → str) (config : Config).

(** A directory that is not a project has no project below it, so the
    search below such a directory finds nothing. *)
Lemma find_project_directories_result (base_parts : Path) (base_dir : Node) :
  _find_project_directories lower config base_parts base_dir
  = if _is_project_directory lower config base_dir
    then [(base_parts, base_dir)] else [].
Proof.
  revert base_parts.
  induction base_dir as [name size | name entries IH] using Node_ind_nested;
    intros base_parts; cbn [_find_project_directories].
  - by destruct (_is_project_directory lower config (File name size)).
  - destruct (_is_project_directory lower config (Dir name entries)) eqn:Hbase;
      [reflexivity |].
    apply flat_map_nil. intros subdir Hsub.
    destruct subdir as [| subname subentries]; [reflexivity |].
    destruct (negb _); [| reflexivity].
    assert (_is_project_directory lower config (Dir subname subentries) = false)
      as Hno.
    { apply is_project_directory_below with (Dir name entries); [| exact Hbase].
      by apply inside_entry. }
    rewrite Hno. rewrite Forall_forall in IH.
    rewrite (IH _ Hsub). by rewrite Hno.
Qed.

(** Every discovered directory is a project and an entry of the code
    directory itself: no directory two or more levels below the code
    directory is returned. *)
Lemma discover_projects_top_level (code_dir : Node) (projects : list (Path * Node))
    (parts : Path) (d : Node) :
  discover_projects lower config (Some code_dir) = inr projects →
  (parts, d) ∈ projects →
  parts = [node_name d]
  ∧ d ∈ iterdir code_dir
  ∧ is_dir d = true
  ∧ should_ignore_dir d (ignore_dirs config) = false
  ∧ _is_project_directory lower config d = true.
Proof.
  destruct code_dir as [| name entries]; cbn [discover_projects iterdir];
    [discriminate |].
  intros [= <-] Hin.
  apply elem_of_flat_map in Hin as (item & Hitem & Hin).
  destruct (is_dir item) eqn:Hdir; cbn [andb] in Hin;
    [| by apply elem_of_nil in Hin].
  destruct (should_ignore_dir item (ignore_dirs config)) eqn:Hign;
    cbn [negb] in Hin; [by apply elem_of_nil in Hin |].
  rewrite find_project_directories_result in Hin.
  destruct (_is_project_directory lower config item) eqn:Hproj;
    [| by apply elem_of_nil in Hin].
  apply list_elem_of_singleton in Hin. injection Hin as -> ->. auto.
Qed.
End Discovery.

(** C2, on a code directory with the chain of empty directories
    [a/b/c/d].  The search is entered on [a/b/c], three levels below the
    code directory, and on [a/b/c/d]: the recursion of
    [_find_project_directories] carries no depth bound.  It returns no
    project there. *)
Theorem find_project_directories_descends_without_bound :
  let code_dir :=
    Dir (u "Code") [Dir (u "a") [Dir (u "b") [Dir (u "c") [Dir (u "d") []]]]] in
  discover_projects_calls ascii_lower default_config code_dir
  = [[u "a"]; [u "a"; u "b"]; [u "a"; u "b"; u "c"]; [u "a"; u "b"; u "c"; u "d"]]
  ∧ discover_projects ascii_lower default_config (Some code_dir) = inr [].
Proof. split; vm_compute; reflexivity. Qed.

(** ** Order of strings and stable sorting *)

Lemma str_leb_total (s t : str) : str_leb s t = true ∨ str_leb t s = true.
Proof.
  revert t. induction s as [| c s IH]; intros [| d t]; cbn; auto.
  destruct (N.lt_trichotomy c d) as [Hlt | [-> | Hgt]].
  - left. apply orb_true_iff. left. by apply N.ltb_lt.
  - rewrite N.ltb_irrefl, N.eqb_refl. cbn. apply IH.
  - right. apply orb_true_iff. left. by apply N.ltb_lt.
Qed.

Lemma str_leb_trans (s t r : str) :
  str_leb s t = true → str_leb t r = true → str_leb s r = true.
Proof.
  revert t r. induction s as [| c s IH]; intros [| d t] [| e r]; cbn; auto;
    try discriminate.
  rewrite !orb_true_iff, !andb_true_iff, !N.ltb_lt, !N.eqb_eq.
  intros [Hcd | [-> Hst]] [Hde | [-> Htr]].
  - left. lia.
  - by left.
  - by left.
  - right. split; [reflexivity |]. by apply IH with t.
Qed.

Section SortingFacts.
Context {A : Type} (le : A → A → bool).
Context (le_total : ∀ x y, le x y = true ∨ le y x = true).
Context (le_trans : ∀ x y z, le x y = true → le y z = true → le x z = true).

Lemma insert_sorted_perm (x : A) (l : list A) : insert_sorted le x l ≡ₚ x :: l.
Proof.
  induction l as [| y l IH]; cbn; [reflexivity |].
  destruct (le x y); [reflexivity |].
  rewrite IH. apply Permutation_swap.
Qed.

Lemma py_sorted_perm (l : list A) : py_sorted le l ≡ₚ l.
Proof.
  induction l as [| x l IH]; cbn; [reflexivity |].
  fold (py_sorted le l). by rewrite insert_sorted_perm, IH.
Qed.

Lemma insert_sorted_sorted (x : A) (l : list A) :
  StronglySorted (λ a b, le a b = true) l →
  StronglySorted (λ a b, le a b = true) (insert_sorted le x l).
Proof.
  induction 1 as [| y l Hsorted IH Hall]; cbn.
  - repeat constructor.
  - destruct (le x y) eqn:Hxy.
    + constructor; [by constructor |].
      constructor; [exact Hxy |].
      eapply Forall_impl; [exact Hall |].
      intros z Hyz. by apply le_trans with y.
    + constructor; [exact IH |].
      rewrite insert_sorted_perm. constructor; [| exact Hall].
      destruct (le_total x y) as [Hle | Hle]; [congruence | exact Hle].
Qed.

Lemma py_sorted_sorted (l : list A) :
  StronglySorted (λ a b, le a b = true) (py_sorted le l).
Proof.
  induction l as [| x l IH]; cbn; [constructor |].
  by apply insert_sorted_sorted.
Qed.
End SortingFacts.

Lemma foldl_snoc {A B} (f : A → B) (init : list B) (l : list A) :
  foldl (λ acc a, acc ++ [f a]) init l = init ++ map f l.
Proof.
  revert init. induction l as [| a l IH]; intros init; cbn.
  - by rewrite app_nil_r.
  - by rewrite IH, <- app_assoc.
Qed.

Lemma startswith_app (s after : str) : startswith (s ++ after) s = true.
Proof. induction s as [| c s IH]; cbn; [reflexivity |]. by rewrite N.eqb_refl. Qed.

Lemma occurs_in_occursb (s t : str) : occurs_in s t → occursb s t = true.
Proof.
  intros (before & after & ->).
  induction before as [| c before IH].
  - pose proof (startswith_app s after) as Hhere. cbn [app].
    destruct (s ++ after); cbn [occursb]; by rewrite Hhere.
  - cbn [app occursb]. rewrite IH. apply orb_true_r.
Qed.

(** ** The index *)

Section Index.
Context (fnmatch : str → str → bool) (lower : str → str).
Context (config : Config) (strftime : datetime → str).

(** C3, as the code has it.  [generate_index] writes one document to
    [INDEX.md] in the output directory: the title, the time, the number
    of projects and, when there are projects, one bullet per project.
    The bullets are those of the given projects, in increasing order of
    the project names, and the link of each bullet is the normalized
    name of its project followed by [.md], without any change of case:
    for projects named Alpha and Beta the bullets are
    [- [Alpha](Alpha.md)] and [- [Beta](Beta.md)].  The link of a
    project produced by [analyze_project] is the name of the file of
    its target path. *)
Theorem generate_index_sorted_links :
  (∀ root_path now projects,
     ∃ ordered,
       ordered ≡ₚ projects
       ∧ StronglySorted (λ p q, str_leb (name p) (name q) = true) ordered
       ∧ generate_index config strftime root_path now projects
         = (root_path ++ markdown_base_dir config ++ [u "INDEX.md"],
            join [10]
              ([u "# Code2Markdown 项目索引"; [];
                u "**生成时间**: " ++ strftime now;
                u "**项目总数**: " ++ str_of_nat (length projects); []]
               ++ match projects with
                  | [] => []
                  | _ :: _ =>
                    [u "## 项目列表"; []]
                    ++ map (λ p, u "- [" ++ name p ++ u "]("
                                 ++ (normalize_project_name (name p) ++ u ".md")
                                 ++ u ")") ordered
                    ++ [[]]
                  end)))
  ∧ (∀ now a b,
       name a = u "Alpha" → name b = u "Beta" →
       index_lines strftime now [b; a]
       = [u "# Code2Markdown 项目索引"; [];
          u "**生成时间**: " ++ strftime now;
          u "**项目总数**: 2"; [];
          u "## 项目列表"; [];
          u "- [Alpha](Alpha.md)"; u "- [Beta](Beta.md)"; []])
  ∧ (∀ root_path now project_parts project_path,
       let info := analyze_project fnmatch lower config root_path now
                     project_parts project_path in
       path_name (target_path info) = md_filename info).
Proof.
  split; [| split].
  - intros root_path now projects.
    exists (py_sorted name_leb projects).
    split; [apply py_sorted_perm |]. split.
    + apply py_sorted_sorted.
      * intros p q. apply str_leb_total.
      * intros p q r. apply str_leb_trans.
    + unfold generate_index, index_lines. rewrite <- app_assoc. f_equal. f_equal.
      destruct projects as [| p projects]; [reflexivity |].
      rewrite foldl_snoc. cbn [app]. reflexivity.
  - intros now a b Ha Hb.
    assert (name_leb b a = false) as Horder
      by (unfold name_leb; rewrite Ha, Hb; reflexivity).
    unfold index_lines, py_sorted. cbn [foldr insert_sorted].
    rewrite Horder. cbn [foldl app insert_sorted].
    unfold index_bullet, md_filename. rewrite Ha, Hb.
    reflexivity.
  - intros root_path now project_parts project_path. cbn.
    unfold path_name, md_filename. cbn [name].
    by rewrite !app_assoc, List.last_last.
Qed.
End Index.

Lemma generate_index_sorted_links_witness :
  let alpha := {| name := u "Alpha"; source_path := [u "Code"; u "Alpha"];
                  target_path := [u "Markdown"; u "Alpha.md"];
                  generated_time := 0%Z; stats := empty_stats |} in
  let beta := {| name := u "Beta"; source_path := [u "Code"; u "Beta"];
                 target_path := [u "Markdown"; u "Beta.md"];
                 generated_time := 0%Z; stats := empty_stats |} in
  index_lines (λ _, u "2024-05-01 12:00:00") 0%Z [beta; alpha]
  = [u "# Code2Markdown 项目索引"; [];
     u "**生成时间**: " ++ u "2024-05-01 12:00:00";
     u "**项目总数**: 2"; [];
     u "## 项目列表"; [];
     u "- [Alpha](Alpha.md)"; u "- [Beta](Beta.md)"; []].
Proof.
  intros alpha beta.
  exact (proj1 (proj2 (generate_index_sorted_links glob_match ascii_lower
                         default_config (λ _, u "2024-05-01 12:00:00")))
               0%Z alpha beta eq_refl eq_refl).
Defined.

(** C3, as stated, fails: in the index of the projects Alpha and Beta no
    link is [alpha.md]; the link of Alpha is [Alpha.md]. *)
Lemma generate_index_keeps_case :
  let alpha := {| name := u "Alpha"; source_path := [u "Code"; u "Alpha"];
                  target_path := [u "Markdown"; u "Alpha.md"];
                  generated_time := 0%Z; stats := empty_stats |} in
  let beta := {| name := u "Beta"; source_path := [u "Code"; u "Beta"];
                 target_path := [u "Markdown"; u "Beta.md"];
                 generated_time := 0%Z; stats := empty_stats |} in
  let document :=
    (generate_index default_config (λ _, u "2024-05-01 12:00:00") [] 0%Z
       [alpha; beta]).2 in
  ¬ occurs_in (u "(alpha.md)") document
  ∧ occurs_in (u "- [Alpha](Alpha.md)") document.
Proof.
  intros alpha beta document. split.
  - intros Hocc. apply occurs_in_occursb in Hocc.
    vm_compute in Hocc. discriminate.
  - exists (u "# Code2Markdown 项目索引" ++ [10; 10]
            ++ u "**生成时间**: 2024-05-01 12:00:00" ++ [10]
            ++ u "**项目总数**: 2" ++ [10; 10]
            ++ u "## 项目列表" ++ [10; 10]),
           ([10] ++ u "- [Beta](Beta.md)" ++ [10]).
    vm_compute. reflexivity.
Qed.

(** ** The sanitizer *)

Lemma replace_single (k : N) (new s : str) :
  replace [k] new s = flat_map (λ c, if c =? k then new else [c]) s.
Proof.
  unfold replace. induction s as [| c s IH]; [reflexivity |].
  cbn [replace_from startswith flat_map length pred].
  rewrite andb_true_r, (N.eqb_sym k c).
  destruct (c =? k); cbn [app]; by rewrite IH.
Qed.

Lemma flat_map_flat_map {A B C} (f : A → list B) (g : B → list C) (l : list A) :
  flat_map g (flat_map f l) = flat_map (λ a, flat_map g (f a)) l.
Proof.
  induction l as [| a l IH]; [reflexivity |].
  cbn. by rewrite flat_map_app, IH.
Qed.

Lemma filter_flat_map (P : N → bool) (l : str) :
  filter (λ c, P c = false) l = flat_map (λ c, if P c then [] else [c]) l.
Proof.
  induction l as [| c l IH]; [reflexivity |].
  rewrite filter_cons. cbn [flat_map].
  destruct (P c) eqn:Hc.
  - rewrite decide_False by congruence. exact IH.
  - rewrite decide_True by reflexivity. cbn. by rewrite IH.
Qed.

Lemma in_removed_class_control (c : N) :
  in_removed_class c = is_control c && negb ((c =? 9) || (c =? 10) || (c =? 13)).
Proof.
  unfold in_removed_class, is_control.
  repeat match goal with
         | |- context [?a <=? ?b] => destruct (N.leb_spec a b)
         | |- context [?a =? ?b] => destruct (N.eqb_spec a b)
         end; cbn; try reflexivity; lia.
Qed.

Lemma clean_text_content_pointwise (content : str) :
  clean_text_content content = flat_map sanitize_code_point content.
Proof.
  destruct content as [| c0 content0]; [reflexivity |].
  unfold clean_text_content. set (content := c0 :: content0). clearbody content.
  unfold replacements. cbn [foldl fst snd].
  rewrite !replace_single, filter_flat_map, !flat_map_flat_map.
  apply flat_map_ext. intros c. unfold sanitize_code_point.
  rewrite <- in_removed_class_control.
  destruct (in_removed_class c); [reflexivity |].
  cbn [flat_map app]. rewrite !app_nil_r.
  destruct (N.eqb_spec c 419) as [-> | H1]; [vm_compute; reflexivity |].
  cbn [flat_map app]. rewrite !app_nil_r.
  destruct (N.eqb_spec c 1827) as [-> | H2]; [vm_compute; reflexivity |].
  cbn [flat_map app]. rewrite !app_nil_r.
  destruct (N.eqb_spec c 1714) as [-> | H3]; [vm_compute; reflexivity |].
  reflexivity.
Qed.

Lemma sanitize_code_point_controls (c0 c : N) :
  c ∈ sanitize_code_point c0 → is_control c = true → c = 9 ∨ c = 10 ∨ c = 13.
Proof.
  unfold sanitize_code_point. intros Hin Hctl.
  destruct (is_control c0 && negb ((c0 =? 9) || (c0 =? 10) || (c0 =? 13)))
    eqn:Hremoved; [by apply elem_of_nil in Hin |].
  assert (∀ label : str,
            forallb (λ x, negb (is_control x)) label = true → c ∈ label → False)
    as Hlabel.
  { intros label Hall Hc. rewrite forallb_forall in Hall.
    apply list_elem_of_In in Hc. specialize (Hall c Hc).
    rewrite Hctl in Hall. discriminate. }
  destruct (c0 =? 419); [exfalso; eapply Hlabel; [| exact Hin]; reflexivity |].
  destruct (c0 =? 1827); [exfalso; eapply Hlabel; [| exact Hin]; reflexivity |].
  destruct (c0 =? 1714); [exfalso; eapply Hlabel; [| exact Hin]; reflexivity |].
  apply list_elem_of_singleton in Hin. subst c0. rewrite Hctl in Hremoved.
  cbn [andb] in Hremoved. apply negb_false_iff in Hremoved.
  rewrite !orb_true_iff, !N.eqb_eq in Hremoved. tauto.
Qed.

Lemma clean_text_content_controls (content : str) (c : N) :
  c ∈ clean_text_content content → is_control c = true →
  c = 9 ∨ c = 10 ∨ c = 13.
Proof.
  rewrite clean_text_content_pointwise. intros Hin Hctl.
  apply elem_of_flat_map in Hin as (c0 & _ & Hin).
  by apply sanitize_code_point_controls with c0.
Qed.

(** A control character of the sanitized text stood in the input. *)
Lemma clean_text_content_control_kept (content : str) (c : N) :
  c ∈ clean_text_content content → is_control c = true → c ∈ content.
Proof.
  rewrite clean_text_content_pointwise. intros Hin Hctl.
  apply elem_of_flat_map in Hin as (c0 & Hc0 & Hin).
  enough (c = c0) by congruence.
  unfold sanitize_code_point in Hin.
  assert (∀ label : str,
            forallb (λ x, negb (is_control x)) label = true → c ∈ label → c = c0)
    as Hlabel.
  { intros label Hall Hc. rewrite forallb_forall in Hall.
    apply list_elem_of_In in Hc. specialize (Hall c Hc).
    rewrite Hctl in Hall. discriminate. }
  destruct (is_control c0 && _); [by apply elem_of_nil in Hin |].
  destruct (c0 =? 419); [eapply Hlabel; [| exact Hin]; reflexivity |].
  destruct (c0 =? 1827); [eapply Hlabel; [| exact Hin]; reflexivity |].
  destruct (c0 =? 1714); [eapply Hlabel; [| exact Hin]; reflexivity |].
  by apply list_elem_of_singleton in Hin.
Qed.

(** A text read in text mode holds no carriage return. *)
Lemma universal_newlines_no_carriage_return (decoded : str) :
  13 ∉ universal_newlines decoded.
Proof.
  assert (∀ n (s : str), (length s ≤ n)%nat → 13 ∉ universal_newlines s) as Hall.
  { induction n as [| n IH]; intros s Hlen.
    - destruct s; [apply not_elem_of_nil | cbn in Hlen; lia].
    - destruct s as [| c rest]; [apply not_elem_of_nil |].
      cbn [length] in Hlen. cbn [universal_newlines].
      destruct (N.eqb_spec c 13) as [-> | Hc].
      + apply not_elem_of_cons. split; [discriminate |].
        destruct rest as [| d rest']; [apply not_elem_of_nil |].
        cbn [length] in Hlen.
        destruct (d =? 10); apply IH; cbn [length]; lia.
      + apply not_elem_of_cons. split; [congruence |]. apply IH. lia. }
  by apply (Hall (length decoded)).
Qed.

Lemma try_encodings_text_mode (decoder : OsFile) (encodings : list Encoding) :
  match (try_encodings (text_mode decoder) encodings).1 with
  | Some (inl text) =>
    ∃ decoded, text = clean_text_content (universal_newlines decoded)
  | _ => True
  end.
Proof.
  induction encodings as [| encoding rest IH]; cbn [try_encodings fst];
    [exact I |].
  cbn [text_mode os_read_strict].
  destruct (os_read_strict decoder encoding); cbn [fst]; [by eexists | | exact I].
  destruct (try_encodings (text_mode decoder) rest) as [result calls]; exact IH.
Qed.

Lemma read_file_safely_text_mode_cases (decoder : OsFile) (max_size : Z) :
  let text := (read_file_safely (text_mode decoder) max_size).1 in
  (∃ size, text = too_large_notice size)
  ∨ (∃ message, text = unreadable_notice message)
  ∨ (∃ decoded, text = clean_text_content (universal_newlines decoded)).
Proof.
  cbv zeta. unfold read_file_safely.
  destruct (max_size <? get_file_info_size (text_mode decoder))%Z;
    [left; by eexists |].
  right.
  pose proof (try_encodings_text_mode decoder [utf_8; gbk; gb2312; utf_16; latin1])
    as Htry.
  destruct (try_encodings (text_mode decoder) _) as [[[text | message] |] calls];
    cbn [fst] in Htry |- *.
  - by right.
  - left. by eexists.
  - cbn [text_mode os_read_ignore].
    destruct (os_read_ignore decoder) as [decoded | message]; cbn [fst].
    + right. by eexists.
    + left. by eexists.
Qed.

(** C4, as the code has it.  For every input string the sanitizer drops
    every C0/C1 control character other than tab, line feed and carriage
    return, replaces each key of the replacement table (U+01A3, U+0723,
    U+06B2) by its label and keeps every other code point in place; so
    its result holds no control character other than tab, line feed or
    carriage return.  The reader opens the file in text mode, which
    leaves no carriage return in what it reads: a decoded text that the
    reader returns holds no control character other than tab and line
    feed. *)
Theorem clean_text_content_strips_controls :
  (∀ content, clean_text_content content = flat_map sanitize_code_point content)
  ∧ (∀ content c,
       c ∈ clean_text_content content → is_control c = true →
       c = 9 ∨ c = 10 ∨ c = 13)
  ∧ (∀ content c,
       c ∈ clean_text_content content → c ≠ 0x01A3 ∧ c ≠ 0x0723 ∧ c ≠ 0x06B2)
  ∧ (∀ decoder max_size,
       let text := (read_file_safely (text_mode decoder) max_size).1 in
       (∃ size, text = too_large_notice size)
       ∨ (∃ message, text = unreadable_notice message)
       ∨ (∃ decoded,
            text = clean_text_content (universal_newlines decoded)
            ∧ ∀ c, c ∈ text → is_control c = true → c = 9 ∨ c = 10)).
Proof.
  split; [exact clean_text_content_pointwise |].
  split; [exact clean_text_content_controls |].
  split.
  - intros content c. rewrite clean_text_content_pointwise. intros Hin.
    apply elem_of_flat_map in Hin as (c0 & _ & Hin).
    unfold sanitize_code_point in Hin.
    assert (∀ label : str,
              forallb (λ x, negb ((x =? 419) || (x =? 1827) || (x =? 1714))) label
              = true →
              c ∈ label → c ≠ 419 ∧ c ≠ 1827 ∧ c ≠ 1714) as Hlabel.
    { intros label Hall Hc. rewrite forallb_forall in Hall.
      apply list_elem_of_In in Hc. specialize (Hall c Hc).
      apply negb_true_iff in Hall. rewrite !orb_false_iff, !N.eqb_neq in Hall.
      tauto. }
    destruct (is_control c0 && _); [by apply elem_of_nil in Hin |].
    destruct (N.eqb_spec c0 419); [eapply Hlabel; [| exact Hin]; reflexivity |].
    destruct (N.eqb_spec c0 1827); [eapply Hlabel; [| exact Hin]; reflexivity |].
    destruct (N.eqb_spec c0 1714); [eapply Hlabel; [| exact Hin]; reflexivity |].
    apply list_elem_of_singleton in Hin. by subst c0.
  - intros decoder max_size text.
    destruct (read_file_safely_text_mode_cases decoder max_size)
      as [H | [H | [decoded H]]]; [by left | by right; left |].
    right; right. exists decoded. split; [exact H |].
    fold text in H. rewrite H. intros c Hin Hctl.
    destruct (clean_text_content_controls _ c Hin Hctl) as [Hc | [Hc | ->]];
      [by left | by right |].
    exfalso. apply (universal_newlines_no_carriage_return decoded).
    by apply clean_text_content_control_kept.
Qed.

Lemma clean_text_content_strips_controls_witness :
  9 ∈ clean_text_content [72; 9; 27; 105] ∧ (9 = 9 ∨ 9 = 10 ∨ 9 = 13).
Proof.
  assert (9 ∈ clean_text_content [72; 9; 27; 105]) as Hin
    by (apply list_elem_of_In; right; left; reflexivity).
  split; [exact Hin |].
  exact (proj1 (proj2 clean_text_content_strips_controls)
           [72; 9; 27; 105] 9 Hin eq_refl).
Defined.

(** C4, as stated, fails for the sanitizer: the carriage return U+000D
    is a C0 control character, it is neither space, tab nor newline, and
    [clean_text_content] keeps it. *)
Lemma clean_text_content_keeps_carriage_return :
  let content := [72; 105; 13; 10] in
  clean_text_content content = content
  ∧ ¬ (∀ c, c ∈ clean_text_content content → is_control c = true →
            c = 32 ∨ c = 9 ∨ c = 10).
Proof.
  intros content.
  assert (clean_text_content content = content) as Hkept
    by (vm_compute; reflexivity).
  split; [exact Hkept |].
  rewrite Hkept. intros Hall.
  assert (13 ∈ content) as Hin
    by (apply list_elem_of_In; right; right; left; reflexivity).
  destruct (Hall 13 Hin eq_refl) as [H | [H | H]]; discriminate H.
Qed.

(** The carriage return does not come through the reader: a file whose
    bytes decode to [Hi], carriage return, line feed is returned with the
    line feed alone. *)
Example read_file_safely_reads_carriage_return_as_newline :
  let decoder := {| os_stat := inl 4%Z;
                    os_read_strict := λ _, Decoded [72; 105; 13; 10];
                    os_read_ignore := inl [] |} in
  read_file_safely (text_mode decoder) 1048576
  = ([72; 105; 10], [CallStat; CallOpenStrict utf_8]).
Proof. vm_compute. reflexivity. Qed.

(** ** The reader *)



(** ** The orchestrator *)

Section OrchestratorFacts.
Context {Exception World : Type}.
Context (analyze_project_step : Path → World → (Exception + ProjectInfo) * World)
        (ensure_directory : Path → World → (Exception + unit) * World)
        (_generate_markdown : ProjectInfo → World → (Exception + str) * World)
        (write_text : Path → str → World → (Exception + unit) * World)
        (discover_projects_step : World → (Exception + list Path) * World).

Local Abbreviation run_project :=
  (convert_project analyze_project_step ensure_directory _generate_markdown
     write_text).
Local Abbreviation run_each :=
  (convert_each analyze_project_step ensure_directory _generate_markdown
     write_text).
Local Abbreviation run_all :=
  (convert_all_projects analyze_project_step ensure_directory
     _generate_markdown write_text discover_projects_step).

(** [convert_project] never raises: it prints that it starts, then
    either that it is done, or the exception it caught. *)
Lemma convert_project_returns (project_path : Path) (s : @State Exception World) :
  ∃ ok s',
    run_project project_path s = (inr ok, s')
    ∧ ((ok = true
        ∧ ∃ target, console s'
                    = console s ++ [MsgConverting project_path; MsgConverted target])
       ∨ (ok = false
          ∧ ∃ e, console s'
                 = console s ++ [MsgConverting project_path; MsgFailed project_path e])).
Proof.
  destruct s as [w0 c0].
  cbv [convert_project try_except bind lift print ret world console].
  repeat case_match; simplify_eq.
  all: eexists _, _; (split; [reflexivity |]); cbn [console].
  all: rewrite <- ?app_assoc; cbn [app].
  all: first [ left; split; [reflexivity |]; by eexists
             | right; split; [reflexivity |]; by eexists ].
Qed.

Lemma attempted_started (console : list (@Message Exception))
    (project_path : Path) (m : Message) :
  attempted [m] = [] →
  attempted (console ++ [MsgConverting project_path; m])
  = attempted console ++ [project_path].
Proof.
  intros Hm. unfold attempted in *.
  change [MsgConverting project_path; m] with ([MsgConverting project_path] ++ [m]).
  by rewrite !omap_app, Hm.
Qed.

(** The loop goes through all the projects, whatever the outcome of
    each. *)
Lemma convert_each_returns (projects : list Path) (success_count : nat)
    (s : @State Exception World) :
  ∃ n s',
    run_each projects success_count s = (inr n, s')
    ∧ (success_count ≤ n ≤ success_count + length projects)%nat
    ∧ attempted (console s') = attempted (console s) ++ projects.
Proof.
  revert success_count s.
  induction projects as [| project_path rest IH]; intros success_count s.
  - exists success_count, s. cbn. rewrite app_nil_r. repeat split; lia.
  - cbn [convert_each].
    unfold bind at 1.
    destruct (convert_project_returns project_path s)
      as (ok & s1 & -> & Hconsole).
    destruct (IH (if ok then S success_count else success_count) s1)
      as (n & s' & -> & Hn & Hattempted).
    exists n, s'. split; [reflexivity |]. split.
    + cbn [length]. destruct ok; lia.
    + rewrite Hattempted.
      assert (attempted (console s1) = attempted (console s) ++ [project_path])
        as ->.
      { destruct Hconsole as [(_ & target & ->) | (_ & e & ->)];
          by apply attempted_started. }
      by rewrite <- app_assoc.
Qed.

Local Abbreviation succeeds :=
  (conversion_succeeds analyze_project_step ensure_directory _generate_markdown
     write_text).
Local Abbreviation outcomes :=
  (conversion_outcomes analyze_project_step ensure_directory _generate_markdown
     write_text).

(** [convert_project] returns [True] exactly when the conversion
    succeeds, and prints one message that says which. *)
Lemma convert_project_outcome (project_path : Path) (s : @State Exception World) :
  ∃ s' m,
    run_project project_path s = (inr (succeeds project_path (world s)), s')
    ∧ console s' = console s ++ [MsgConverting project_path; m]
    ∧ is_converted m = succeeds project_path (world s)
    ∧ is_failure m = negb (succeeds project_path (world s)).
Proof.
  destruct s as [w0 c0].
  cbv [convert_project conversion_succeeds try_except bind lift print ret world
       console].
  destruct (analyze_project_step project_path w0) as [[e | info] w1].
  2: destruct (ensure_directory (path_parent (target_path info)) w1)
       as [[e | done] w2].
  3: destruct (_generate_markdown info w2) as [[e | markdown] w3].
  4: destruct (write_text (target_path info) markdown w3) as [[e | written] w4].
  all: eexists _, _; (split; [reflexivity |]); cbn [console].
  all: rewrite <- ?app_assoc; cbn [app].
  all: split; [reflexivity |]; split; reflexivity.
Qed.

(** The loop adds one to the count for each conversion that returns
    [True]. *)
Lemma convert_each_outcomes (projects : list Path) (success_count : nat)
    (s : @State Exception World) :
  ∃ s' new,
    run_each projects success_count s
    = (inr (success_count + length (List.filter id (outcomes projects s)))%nat, s')
    ∧ length (outcomes projects s) = length projects
    ∧ console s' = console s ++ new
    ∧ length (List.filter is_converted new)
      = length (List.filter id (outcomes projects s))
    ∧ (length (List.filter is_converted new) + length (List.filter is_failure new)
       = length projects)%nat.
Proof.
  revert success_count s.
  induction projects as [| project_path rest IH]; intros success_count s.
  - exists s, []. cbn. rewrite app_nil_r, Nat.add_0_r. repeat split.
  - cbn [convert_each conversion_outcomes].
    unfold bind at 1.
    destruct (convert_project_outcome project_path s)
      as (s1 & m & -> & Hconsole & Hconverted & Hfailure).
    destruct (IH (if succeeds project_path (world s) then S success_count
                  else success_count) s1)
      as (s' & new & -> & Hlen & Hnew & Hsuccesses & Htotal).
    exists s', ([MsgConverting project_path; m] ++ new).
    rewrite Hnew, Hconsole, <- app_assoc.
    rewrite !List.filter_app, !length_app.
    cbn [List.filter is_converted is_failure length].
    rewrite Hconverted, Hfailure.
    destruct (succeeds project_path (world s));
      cbn [List.filter id negb length Nat.add]; repeat split; try lia.
    all: f_equal; f_equal; lia.
Qed.

End OrchestratorFacts.


(** On the small world the first project fails and the second one is
    still converted. *)
Example convert_all_projects_continues :
  (convert_all_projects demo_analyze demo_ensure_directory demo_generate_markdown
     demo_write_text demo_discover demo_start).1
  = inr (1%nat, 2%nat)
  ∧ world (convert_all_projects demo_analyze demo_ensure_directory
             demo_generate_markdown demo_write_text demo_discover demo_start).2
    = [([u "Markdown"; u "good.md"], u "# good")].
Proof. split; vm_compute; reflexivity. Qed.

(** ** Project analysis *)

Lemma filter_length_perm {A} (p : A → bool) (l l' : list A) :
  l ≡ₚ l' → length (List.filter p l) = length (List.filter p l').
Proof.
  induction 1 as [| x l l' _ IH | x y l | l l' l'' _ IH1 _ IH2]; cbn.
  - reflexivity.
  - destruct (p x); cbn; by rewrite IH.
  - by destruct (p x), (p y).
  - by rewrite IH1.
Qed.

Section Analysis.
Context (fnmatch : str → str → bool) (lower : str → str) (config : Config).

Local Abbreviation ext_of := (λ item : Node, lower (suffix (node_name item))).
Local Abbreviation kept := (List.filter (retained fnmatch config)).

(** One turn of the loop puts a kept file in the bucket of its
    extension and adds its size. *)
Lemma analyze_step_bucket (s0 : FileStats) (item : Node) :
  let st := analyze_step fnmatch lower config s0 item in
  let n b := if retained fnmatch config item
             then (if bucket_eqb (bucket_of_extension config (ext_of item)) b
                   then 1 else 0)%nat
             else 0%nat in
  code_files st = (code_files s0 + n CodeBucket)%nat
  ∧ header_files st = (header_files s0 + n HeaderBucket)%nat
  ∧ project_files st = (project_files s0 + n ProjectBucket)%nat
  ∧ other_files st = (other_files s0 + n OtherBucket)%nat
  ∧ total_size st
    = (total_size s0 + if retained fnmatch config item then file_size item else 0)%Z.
Proof.
  cbv zeta. unfold analyze_step, retained, bucket_of_extension, header_extensions.
  destruct (is_file item && negb (should_ignore_file fnmatch item _));
    [| cbn; repeat split; lia].
  destruct (set_mem (ext_of item) (code_extensions config));
    [destruct (str_in (ext_of item) _) |
     destruct (set_mem (ext_of item) (project_extensions config))];
    cbn [bucket_eqb code_files header_files project_files other_files total_size];
    repeat split; lia.
Qed.

(** What the loop of [analyze_project] accumulates. *)
Lemma analyze_loop (items : list Node) (s0 : FileStats) :
  let st := foldl (analyze_step fnmatch lower config) s0 items in
  let exts := map ext_of (kept items) in
  code_files st = (code_files s0 + count_bucket config CodeBucket exts)%nat
  ∧ header_files st = (header_files s0 + count_bucket config HeaderBucket exts)%nat
  ∧ project_files st = (project_files s0 + count_bucket config ProjectBucket exts)%nat
  ∧ other_files st = (other_files s0 + count_bucket config OtherBucket exts)%nat
  ∧ total_size st = (total_size s0 + sum_sizes (kept items))%Z.
Proof.
  revert s0. induction items as [| item items IH]; intros s0; cbv zeta.
  - cbn. repeat split; lia.
  - cbn [foldl List.filter].
    specialize (IH (analyze_step fnmatch lower config s0 item)).
    cbv zeta in IH. destruct IH as (Hc & Hh & Hp & Ho & Ht).
    rewrite Hc, Hh, Hp, Ho, Ht. clear Hc Hh Hp Ho Ht.
    destruct (analyze_step_bucket s0 item) as (Hc & Hh & Hp & Ho & Ht).
    cbv zeta in Hc, Hh, Hp, Ho, Ht.
    rewrite Hc, Hh, Hp, Ho, Ht. clear Hc Hh Hp Ho Ht.
    destruct (retained fnmatch config item); [| repeat split; lia].
    unfold count_bucket, sum_sizes. cbn [map List.filter].
    repeat split;
      try (destruct (bucket_eqb (bucket_of_extension config (ext_of item)) _);
           cbn [length]; lia).
    cbn [foldr]. fold (sum_sizes (kept items)). lia.
Qed.
End Analysis.

Lemma count_bucket_total (config : Config) (exts : list str) :
  (count_bucket config CodeBucket exts + count_bucket config HeaderBucket exts
   + count_bucket config ProjectBucket exts + count_bucket config OtherBucket exts
   = length exts)%nat.
Proof.
  unfold count_bucket. induction exts as [| ext exts IH]; [reflexivity |].
  cbn [List.filter]. destruct (bucket_of_extension config ext);
    cbn [bucket_eqb length]; lia.
Qed.

Lemma filter_retained_files (fnmatch : str → str → bool) (config : Config)
    (items : list Node) :
  (∀ f, f ∈ items → is_file f = true →
        should_ignore_file fnmatch f (ignore_files config) = false) →
  List.filter (retained fnmatch config) items = List.filter is_file items.
Proof.
  intros Hkept. apply filter_ext_in. intros f Hf. unfold retained.
  destruct (is_file f) eqn:Hfile; [| reflexivity].
  rewrite Hkept; [reflexivity | by apply list_elem_of_In | exact Hfile].
Qed.

(** C7.  [analyze_project] counts each file that matches no ignore
    pattern in the bucket of its lower-cased extension: code extensions
    count as code unless the extension is [.h], [.hpp] or [.hh], which
    count as headers; project extensions count as project files; all
    others as other files.  With the default extension sets, a project
    whose files are two [.c] files, one [.h], one [.json] and one [.png],
    none of them ignored, has the counts 2, 1, 1 and 1. *)
Theorem analyze_project_buckets (fnmatch : str → str → bool) (lower : str → str)
    (root_path : Path) (now : datetime) (project_parts : Path) (project : Node) :
  (∀ config,
     let st := stats (analyze_project fnmatch lower config root_path now
                        project_parts project) in
     let exts := map (λ f, lower (suffix (node_name f)))
                     (List.filter (retained fnmatch config) (rglob project)) in
     code_files st = count_bucket config CodeBucket exts
     ∧ header_files st = count_bucket config HeaderBucket exts
     ∧ project_files st = count_bucket config ProjectBucket exts
     ∧ other_files st = count_bucket config OtherBucket exts)
  ∧ ((∀ f, inside f project → is_file f = true →
           should_ignore_file fnmatch f (ignore_files default_config) = false) →
     map (λ f, lower (suffix (node_name f))) (List.filter is_file (rglob project))
     ≡ₚ [u ".c"; u ".c"; u ".h"; u ".json"; u ".png"] →
     let st := stats (analyze_project fnmatch lower default_config root_path now
                        project_parts project) in
     code_files st = 2%nat ∧ header_files st = 1%nat
     ∧ project_files st = 1%nat ∧ other_files st = 1%nat).
Proof.
  assert (∀ config,
     let st := stats (analyze_project fnmatch lower config root_path now
                        project_parts project) in
     let exts := map (λ f, lower (suffix (node_name f)))
                     (List.filter (retained fnmatch config) (rglob project)) in
     code_files st = count_bucket config CodeBucket exts
     ∧ header_files st = count_bucket config HeaderBucket exts
     ∧ project_files st = count_bucket config ProjectBucket exts
     ∧ other_files st = count_bucket config OtherBucket exts) as Hgeneral.
  { intros config. cbv zeta. unfold analyze_project. cbn [stats].
    destruct (analyze_loop fnmatch lower config (rglob project) empty_stats)
      as (Hc & Hh & Hp & Ho & _).
    cbv zeta in Hc, Hh, Hp, Ho. by rewrite Hc, Hh, Hp, Ho. }
  split; [exact Hgeneral |].
  intros Hkept Hperm. cbv zeta.
  destruct (Hgeneral default_config) as (Hc & Hh & Hp & Ho).
  cbv zeta in Hc, Hh, Hp, Ho. rewrite Hc, Hh, Hp, Ho.
  rewrite filter_retained_files
    by (intros f Hf; apply Hkept; by apply rglob_inside).
  unfold count_bucket.
  rewrite !(filter_length_perm _ _ _ Hperm).
  repeat split; vm_compute; reflexivity.
Qed.

Lemma analyze_project_buckets_witness :
  let project :=
    Dir (u "demo")
      [File (u "main.c") 1200; File (u "util.c") 800;
       Dir (u "include") [File (u "util.h") 150; File (u "package.json") 90;
                          File (u "logo.png") 5000]] in
  let st := stats (analyze_project glob_match ascii_lower default_config
                     [u "/"; u "work"] 0%Z [u "Code"; u "demo"] project) in
  code_files st = 2%nat ∧ header_files st = 1%nat
  ∧ project_files st = 1%nat ∧ other_files st = 1%nat.
Proof.
  intros project.
  apply (proj2 (analyze_project_buckets glob_match ascii_lower
                  [u "/"; u "work"] 0%Z [u "Code"; u "demo"] project)).
  - intros f Hf _. apply rglob_inside, list_elem_of_In in Hf.
    vm_compute in Hf.
    repeat (destruct Hf as [<- | Hf]; [vm_compute; reflexivity |]).
    destruct Hf.
  - vm_compute. reflexivity.
Defined.

Section IgnoredDirectories.
Context (fnmatch : str → str → bool) (lower : str → str) (config : Config).

Lemma analyze_step_ignore_dirs (dirs : gset str) (s0 : FileStats) (item : Node) :
  analyze_step fnmatch lower (with_ignore_dirs config dirs) s0 item
  = analyze_step fnmatch lower config s0 item.
Proof. reflexivity. Qed.

Lemma visible_items_skip_ignored (name : str) (pre post : list Node) (d : Node) :
  is_dir d = true →
  should_ignore_dir d (ignore_dirs config) = true →
  visible_items fnmatch (Dir name (pre ++ d :: post)) (ignore_dirs config)
    (ignore_files config)
  = visible_items fnmatch (Dir name (pre ++ post)) (ignore_dirs config)
      (ignore_files config).
Proof.
  intros Hdir Hignored. unfold visible_items. cbn [iterdir].
  rewrite !omap_app. f_equal. cbn [omap list_omap].
  rewrite Hdir, Hignored. cbn [andb negb].
  destruct d; [discriminate Hdir | reflexivity].
Qed.

End IgnoredDirectories.


(** On this project the file in [node_modules] is counted as a code file
    and its 40 bytes are added, while the rendered tree shows [main.c]
    only. *)
Example analyze_project_node_modules :
  let project :=
    Dir (u "demo") [File (u "main.c") 100;
                    Dir (u "node_modules") [File (u "index.js") 40]] in
  stats (analyze_project glob_match ascii_lower default_config
           [u "/"; u "work"] 0%Z [u "Code"; u "demo"] project)
  = {| code_files := 2; header_files := 0; project_files := 0; other_files := 0;
       total_size := 140 |}
  ∧ generate_tree_structure glob_match ascii_lower project
      (ignore_dirs default_config) (ignore_files default_config) 10 0
    = [u "└── main.c"].
Proof. split; vm_compute; reflexivity. Qed.


(** ** The tree renderer *)

Lemma StronglySorted_weaken {A} (R R' : A → A → Prop) (l : list A) :
  (∀ x y, R x y → R' x y) → StronglySorted R l → StronglySorted R' l.
Proof.
  intros Himpl. induction 1 as [| x l _ IH Hall]; constructor; [exact IH |].
  eapply Forall_impl; [exact Hall |]. intros y. apply Himpl.
Qed.

Section TreeRenderer.
Context (fnmatch : str → str → bool) (lower : str → str).

Lemma item_leb_total (x y : Node * bool) :
  item_leb lower x y = true ∨ item_leb lower y x = true.
Proof.
  unfold item_leb, key_leb, item_key. cbn [fst snd].
  destruct (negb x.2), (negb y.2); auto; apply str_leb_total.
Qed.

Lemma item_leb_trans (x y z : Node * bool) :
  item_leb lower x y = true → item_leb lower y z = true →
  item_leb lower x z = true.
Proof.
  unfold item_leb, key_leb, item_key. cbn [fst snd].
  destruct (negb x.2), (negb y.2), (negb z.2); auto; try discriminate;
    apply str_leb_trans.
Qed.

Lemma item_leb_dirs_first (x y : Node * bool) :
  item_leb lower x y = true → dirs_first_then_name lower x y.
Proof.
  unfold item_leb, key_leb, item_key, dirs_first_then_name. cbn [fst snd].
  destruct x.2, y.2; cbn [negb]; auto; discriminate.
Qed.

Lemma filter_continuation_lines (child_prefix : str) (lines : list str) :
  is_entry_line child_prefix = false → child_prefix ≠ [] →
  List.filter is_entry_line (map (λ line, child_prefix ++ line) lines) = [].
Proof.
  intros Hprefix Hnonempty.
  induction lines as [| line lines IH]; [reflexivity |].
  cbn [map List.filter].
  destruct child_prefix as [| c rest]; [done |].
  cbn [app is_entry_line] in *. by rewrite Hprefix.
Qed.

Lemma is_entry_line_last (rest : str) : is_entry_line (last_prefix ++ rest) = true.
Proof. reflexivity. Qed.

Lemma is_entry_line_middle (rest : str) :
  is_entry_line (middle_prefix ++ rest) = true.
Proof. reflexivity. Qed.

Lemma render_items_entry_lines (subtree : Node → list str)
    (items : list (Node * bool)) :
  List.filter is_entry_line (render_items subtree items) = entry_lines items.
Proof.
  induction items as [| [item is_dir] rest IH]; [reflexivity |].
  cbn [render_items entry_lines fst snd].
  change (u "└── ") with last_prefix. change (u "├── ") with middle_prefix.
  rewrite List.filter_app, IH.
  destruct is_dir.
  - cbn [List.filter].
    destruct rest as [| next rest].
    + rewrite is_entry_line_last.
      rewrite filter_continuation_lines; [reflexivity | reflexivity | discriminate].
    + rewrite is_entry_line_middle.
      rewrite filter_continuation_lines; [reflexivity | reflexivity | discriminate].
  - cbn [List.filter].
    destruct rest as [| next rest].
    + rewrite is_entry_line_last. cbn [app]. by rewrite app_nil_r.
    + rewrite is_entry_line_middle. cbn [app]. by rewrite app_nil_r.
Qed.

Lemma render_items_other_lines (subtree : Node → list str)
    (items : list (Node * bool)) (line : str) :
  line ∈ render_items subtree items →
  is_entry_line line = false →
  ∃ d sub_line,
    (d, true) ∈ items
    ∧ sub_line ∈ subtree d
    ∧ (line = u "│   " ++ sub_line ∨ line = u "    " ++ sub_line).
Proof.
  induction items as [| [item is_dir] rest IH]; intros Hin Hline.
  - by apply elem_of_nil in Hin.
  - cbn [render_items] in Hin. apply elem_of_app in Hin as [Hin | Hin].
    + destruct is_dir.
      * apply elem_of_cons in Hin as [-> | Hin].
        { destruct rest; discriminate Hline. }
        apply list_elem_of_fmap in Hin as (sub_line & -> & Hsub).
        exists item, sub_line. split; [left |]. split; [exact Hsub |].
        destruct rest; [right | left]; reflexivity.
      * apply list_elem_of_singleton in Hin as ->.
        destruct rest; discriminate Hline.
    + destruct (IH Hin Hline) as (d & sub_line & Hd & Hsub & Hshape).
      exists d, sub_line. split; [by right | by split].
Qed.

End TreeRenderer.


(** The rendering of that directory, line by line. *)
Example generate_tree_structure_demo :
  generate_tree_structure glob_match ascii_lower
    (Dir (u "demo")
       [File (u "b.txt") 12; Dir (u "A") [File (u "z.c") 30; File (u "Y.c") 31]])
    (ignore_dirs default_config) (ignore_files default_config) 10 0
  = [u "├── A/"; u "│   ├── Y.c"; u "│   └── z.c"; u "└── b.txt"].
Proof. vm_compute. reflexivity. Qed.

(** ** Project names *)

(** The date suffix is removed only when it is an underscore followed by
    exactly eight digits at the end of the name. *)
Example normalize_project_name_examples :
  normalize_project_name (u "Foo_20230615") = u "Foo"
  ∧ normalize_project_name (u "Foo") = u "Foo"
  ∧ normalize_project_name (u "Foo_2023061") = u "Foo_2023061"
  ∧ normalize_project_name (u "Foo_20230615x") = u "Foo_20230615x".
Proof. repeat split; vm_compute; reflexivity. Qed.

(** ** Project names, continued *)

Lemma is_digit_decimal (digits : str) :
  forallb is_digit digits = true → forallb is_decimal_digit digits = true.
Proof.
  rewrite !forallb_forall. intros Hall c Hc. specialize (Hall c Hc).
  unfold is_digit in Hall. apply andb_true_iff in Hall as [Hlow Hhigh].
  apply N.leb_le in Hlow, Hhigh.
  unfold is_decimal_digit, decimal_digit_zeros. cbn [existsb].
  apply orb_true_iff. left. apply andb_true_iff.
  split; [apply N.leb_le | apply N.ltb_lt]; lia.
Qed.

Lemma ends_with_date_stamp (base digits : str) :
  length digits = 8%nat → forallb is_decimal_digit digits = true →
  ends_with_date (base ++ 95 :: digits) = true.
Proof.
  intros Hlen Hdigits. unfold ends_with_date.
  rewrite length_app. cbn [length]. rewrite Hlen.
  replace (length base + 9 - 9)%nat with (length base) by lia.
  rewrite drop_app_length. rewrite Hdigits.
  apply andb_true_iff. split; [apply Nat.leb_le; lia | reflexivity].
Qed.

Lemma ends_with_date_inv (name : str) :
  ends_with_date name = true → has_date_suffix name.
Proof.
  unfold ends_with_date. intros H.
  apply andb_true_iff in H as [Hlen H]. apply Nat.leb_le in Hlen.
  destruct (drop (length name - 9) name) as [| c digits] eqn:Hdrop;
    [discriminate |].
  apply andb_true_iff in H as [Hc Hdigits]. apply N.eqb_eq in Hc. subst c.
  exists (take (length name - 9) name), digits. split; [| split].
  - by rewrite <- Hdrop, take_drop.
  - assert (length (drop (length name - 9) name) = 9%nat) as Hl
      by (rewrite length_drop; lia).
    rewrite Hdrop in Hl. cbn [length] in Hl. lia.
  - exact Hdigits.
Qed.

Lemma normalize_project_name_stamp (base digits : str) :
  length digits = 8%nat →
  forallb is_decimal_digit digits = true →
  normalize_project_name (base ++ 95 :: digits) = base.
Proof.
  intros Hlen Hdigits. unfold normalize_project_name.
  rewrite ends_with_date_stamp by assumption.
  rewrite length_app. cbn [length]. rewrite Hlen.
  replace (length base + 9 - 9)%nat with (length base) by lia.
  by rewrite take_app_length.
Qed.

(** [normalize_project_name] removes a date stamp that ends the name,
    whatever stands before it; when the stamp is followed by a final line
    feed it is removed as well and the line feed stays. *)
Theorem normalize_project_name_strips_stamp (base digits : str) :
  length digits = 8%nat →
  forallb is_digit digits = true →
  normalize_project_name (base ++ 95 :: digits) = base
  ∧ normalize_project_name (base ++ 95 :: digits ++ [10]) = base ++ [10].
Proof.
  intros Hlen Hdigits. apply is_digit_decimal in Hdigits. split.
  - by apply normalize_project_name_stamp.
  - unfold normalize_project_name.
    assert (ends_with_date (base ++ 95 :: digits ++ [10]) = false) as ->.
    { unfold ends_with_date. rewrite !length_app. cbn [length].
      rewrite length_app. cbn [length]. rewrite Hlen.
      replace (length base + S (8 + 1) - 9)%nat with (length base + 1)%nat by lia.
      change (base ++ 95 :: digits ++ [10]) with (base ++ [95] ++ digits ++ [10]).
      rewrite app_assoc, drop_app_length'
        by (rewrite length_app; cbn [length]; lia).
      destruct digits as [| d0 others]; [discriminate Hlen |].
      cbn [app]. rewrite forallb_app.
      change (forallb is_decimal_digit [10]) with false.
      by rewrite !andb_false_r. }
    pose proof (ends_with_date_stamp base digits Hlen Hdigits) as Hstem.
    assert (length (base ++ 95 :: digits) = (length base + 9)%nat) as Hstem_len
      by (rewrite length_app; cbn [length]; lia).
    replace (base ++ 95 :: digits ++ [10]) with ((base ++ 95 :: digits) ++ [10])
      by (by rewrite <- app_assoc).
    set (stem := base ++ 95 :: digits) in *.
    rewrite List.last_last, length_app. cbn [length].
    replace (length stem + 1 - 1)%nat with (length stem) by lia.
    rewrite take_app_length, Hstem.
    replace (length stem + 1 - 10)%nat with (length base) by lia.
    f_equal. rewrite take_app_le by lia. unfold stem. by rewrite take_app_length.
Qed.

Lemma normalize_project_name_strips_stamp_witness :
  normalize_project_name (u "SC92F7003" ++ 95 :: u "20230615") = u "SC92F7003"
  ∧ normalize_project_name (u "SC92F7003" ++ 95 :: u "20230615" ++ [10])
    = u "SC92F7003" ++ [10].
Proof.
  exact (normalize_project_name_strips_stamp (u "SC92F7003") (u "20230615")
           eq_refl eq_refl).
Defined.

Lemma normalize_project_name_unfold (name : str) :
  normalize_project_name name
  = if ends_with_date name then take (length name - 9) name
    else if (List.last name 0 =? 10) && ends_with_date (take (length name - 1) name)
         then take (length name - 10) name ++ [10]
         else name.
Proof.
  unfold normalize_project_name.
  destruct (ends_with_date name); [reflexivity |].
  destruct (List.last name 0) as [| p]; [reflexivity |].
  do 4 (try (destruct p as [p | p |]; try reflexivity)).
  all: cbn [N.eqb Pos.eqb andb];
    by destruct (ends_with_date (take (length name - 1) name)).
Qed.

(** A name that does not end with a date stamp, also when a final line
    feed is set aside, is returned unchanged. *)
Theorem normalize_project_name_keeps_other_names (name : str) :
  ¬ has_date_suffix name →
  (∀ stem, name = stem ++ [10] → ¬ has_date_suffix stem) →
  normalize_project_name name = name.
Proof.
  intros Hplain Hline. rewrite normalize_project_name_unfold.
  destruct (ends_with_date name) eqn:Hends.
  - exfalso. apply Hplain. by apply ends_with_date_inv.
  - destruct (N.eqb_spec (List.last name 0) 10) as [Hlast | _]; [| reflexivity].
    destruct (ends_with_date (take (length name - 1) name)) eqn:Hstem;
      [| reflexivity].
    exfalso. apply (Hline (take (length name - 1) name)).
    + destruct (exists_last (l := name)) as (stem & c & ->).
      { intros ->. discriminate Hlast. }
      rewrite List.last_last in Hlast. subst c.
      rewrite length_app. cbn [length].
      replace (length stem + 1 - 1)%nat with (length stem) by lia.
      by rewrite take_app_length.
    + by apply ends_with_date_inv.
Qed.

Lemma normalize_project_name_keeps_other_names_witness :
  normalize_project_name (u "Foo_2023061") = u "Foo_2023061".
Proof.
  apply normalize_project_name_keeps_other_names.
  - intros (base & digits & Hname & Hlen & Hdigits).
    pose proof (ends_with_date_stamp base digits Hlen Hdigits) as Hends.
    rewrite <- Hname in Hends. vm_compute in Hends. discriminate Hends.
  - intros stem Hname.
    apply (f_equal (λ s, List.last s 0)) in Hname.
    rewrite List.last_last in Hname. vm_compute in Hname. discriminate Hname.
Defined.

(** The stamp may be written with the decimal digits of any script: a
    stamp of fullwidth digits is removed as well. *)
Example normalize_project_name_fullwidth_stamp :
  normalize_project_name (u "Foo_２０２３０６１５") = u "Foo".
Proof. vm_compute. reflexivity. Qed.

Lemma collect_meaningful_head (parts_rev : list str) (first : str) :
  ∃ others, collect_meaningful parts_rev [first] = first :: others.
Proof.
  induction parts_rev as [| part rest IH]; cbn [collect_meaningful].
  - by exists [].
  - destruct (negb (startswith part (u ".")) && _); cbn [app length Nat.leb].
    + by exists [part].
    + exact IH.
Qed.

Lemma collect_meaningful_skips (skipped : list str) (part : str) (rest : list str) :
  Forall (λ p, is_meaningful_part p = false) skipped →
  is_meaningful_part part = true →
  ∃ others, collect_meaningful (skipped ++ part :: rest) [] = part :: others.
Proof.
  intros Hskipped Hpart.
  induction Hskipped as [| p skipped Hp _ IH]; cbn [app collect_meaningful].
  - fold (is_meaningful_part part). rewrite Hpart. cbn [app length Nat.leb].
    apply collect_meaningful_head.
  - fold (is_meaningful_part p). rewrite Hp. cbn [length Nat.leb]. exact IH.
Qed.

Lemma collect_meaningful_none (parts_rev : list str) :
  Forall (λ p, is_meaningful_part p = false) parts_rev →
  collect_meaningful parts_rev [] = [].
Proof.
  induction 1 as [| p rest Hp _ IH]; cbn [collect_meaningful]; [reflexivity |].
  fold (is_meaningful_part p). rewrite Hp. cbn [length Nat.leb]. exact IH.
Qed.

Lemma extract_project_name_deepest (above : Path) (part : str) (below : Path) :
  is_meaningful_part part = true →
  Forall (λ p, is_meaningful_part p = false) below →
  extract_project_name_from_path (above ++ part :: below) = part.
Proof.
  intros Hpart Hbelow. unfold extract_project_name_from_path.
  rewrite rev_app_distr. cbn [rev]. rewrite <- app_assoc. cbn [app].
  destruct (collect_meaningful_skips (rev below) part (rev above))
    as (others & ->); [by apply Forall_rev | exact Hpart | reflexivity].
Qed.

(** [extract_project_name_from_path] returns the deepest component of
    the path that neither starts with a dot nor is [Code] or [Markdown],
    whatever the components above it; when the path has no such
    component, it returns the last component. *)
Theorem extract_project_name_deepest_meaningful :
  (∀ above part below,
     is_meaningful_part part = true →
     Forall (λ p, is_meaningful_part p = false) below →
     extract_project_name_from_path (above ++ part :: below) = part)
  ∧ (∀ path,
       Forall (λ p, is_meaningful_part p = false) path →
       extract_project_name_from_path path = path_name path).
Proof.
  split.
  - apply extract_project_name_deepest.
  - intros path Hpath. unfold extract_project_name_from_path.
    by rewrite collect_meaningful_none by (by apply Forall_rev).
Qed.

Lemma extract_project_name_deepest_meaningful_witness :
  extract_project_name_from_path
    ([u "/"; u "work"; u "Code"] ++ u "batch_20230615" :: [u "Code"; u ".cache"])
  = u "batch_20230615"
  ∧ extract_project_name_from_path [u "Code"; u ".git"] = path_name [u "Code"; u ".git"].
Proof.
  destruct extract_project_name_deepest_meaningful as [Hdeep Hnone]. split.
  - apply Hdeep; [reflexivity |]. repeat constructor.
  - apply Hnone. repeat constructor.
Defined.

Lemma str_eqb_length (s t : str) : str_eqb s t = true → length s = length t.
Proof.
  revert t. induction s as [| c s IH]; intros [| d t]; cbn; try discriminate;
    [reflexivity |].
  intros H. apply andb_true_iff in H as [_ H]. f_equal. by apply IH.
Qed.

Lemma stamped_name_meaningful (base digits : str) :
  startswith base (u ".") = false →
  length digits = 8%nat →
  is_meaningful_part (base ++ 95 :: digits) = true.
Proof.
  intros Hdot Hlen. unfold is_meaningful_part.
  assert (length (base ++ 95 :: digits) = (length base + 9)%nat) as Hl
    by (rewrite length_app; cbn [length]; lia).
  apply andb_true_iff. split; apply negb_true_iff.
  - destruct base as [| c base]; [reflexivity | exact Hdot].
  - unfold str_in. cbn [existsb]. rewrite !orb_false_iff.
    repeat split; try reflexivity;
      (destruct (str_eqb (base ++ 95 :: digits) _) eqn:Heq; [| reflexivity]);
      apply str_eqb_length in Heq; rewrite Hl in Heq.
    + change (length (u "Code")) with 4%nat in Heq. lia.
    + change (length (u "Markdown")) with 8%nat in Heq. lia.
Qed.

(** Two projects whose directory names are the same base, which does
    not start with a dot, followed by an underscore and eight decimal
    digits get the same target path from [analyze_project], whatever
    their stamps and the directories they lie in: the output directory
    followed by the base and [.md]. *)
Theorem analyze_project_stamped_names_share_target
    (fnmatch : str → str → bool) (lower : str → str) (config : Config)
    (root_path : Path) (now1 now2 : datetime) (parent1 parent2 : Path)
    (base stamp1 stamp2 : str) (project1 project2 : Node) :
  startswith base (u ".") = false →
  length stamp1 = 8%nat → forallb is_decimal_digit stamp1 = true →
  length stamp2 = 8%nat → forallb is_decimal_digit stamp2 = true →
  target_path (analyze_project fnmatch lower config root_path now1
                 (parent1 ++ [base ++ 95 :: stamp1]) project1)
  = root_path ++ markdown_base_dir config ++ [base ++ u ".md"]
  ∧ target_path (analyze_project fnmatch lower config root_path now2
                   (parent2 ++ [base ++ 95 :: stamp2]) project2)
    = root_path ++ markdown_base_dir config ++ [base ++ u ".md"].
Proof.
  intros Hdot Hlen1 Hdigits1 Hlen2 Hdigits2.
  split; unfold analyze_project; cbn [target_path].
  - rewrite (extract_project_name_deepest parent1 _ []);
      [| by apply stamped_name_meaningful | constructor].
    by rewrite normalize_project_name_stamp.
  - rewrite (extract_project_name_deepest parent2 _ []);
      [| by apply stamped_name_meaningful | constructor].
    by rewrite normalize_project_name_stamp.
Qed.

Lemma analyze_project_stamped_names_share_target_witness :
  target_path (analyze_project glob_match ascii_lower default_config
                 [u "/"; u "work"] 0%Z
                 ([u "Code"] ++ [u "Blink" ++ 95 :: u "20230615"])
                 (Dir (u "Blink_20230615") [File (u "main.c") 10]))
  = [u "/"; u "work"] ++ markdown_base_dir default_config ++ [u "Blink" ++ u ".md"]
  ∧ target_path (analyze_project glob_match ascii_lower default_config
                   [u "/"; u "work"] 1%Z
                   ([u "Code"] ++ [u "Blink" ++ 95 :: u "20240101"])
                   (Dir (u "Blink_20240101") [File (u "main.c") 25]))
    = [u "/"; u "work"] ++ markdown_base_dir default_config ++ [u "Blink" ++ u ".md"].
Proof.
  exact (analyze_project_stamped_names_share_target glob_match ascii_lower
           default_config [u "/"; u "work"] 0%Z 1%Z [u "Code"] [u "Code"]
           (u "Blink") (u "20230615") (u "20240101")
           (Dir (u "Blink_20230615") [File (u "main.c") 10])
           (Dir (u "Blink_20240101") [File (u "main.c") 25])
           eq_refl eq_refl eq_refl eq_refl eq_refl).
Defined.

(** ** The language table *)

Lemma language_mapping_keys :
  dom LANGUAGE_MAPPING = code_extensions default_config.
Proof.
  apply (bool_decide_unpack (dom LANGUAGE_MAPPING = code_extensions default_config)).
  vm_compute. exact I.
Qed.

Lemma language_mapping_values (ext language : str) :
  LANGUAGE_MAPPING !! ext = Some language → language ≠ u "text".
Proof.
  assert (map_Forall (λ _ v, v ≠ u "text") LANGUAGE_MAPPING) as Hall.
  { apply (bool_decide_unpack (map_Forall (λ _ v, v ≠ u "text") LANGUAGE_MAPPING)).
    vm_compute. exact I. }
  intros Hext. exact (Hall ext language Hext).
Qed.

(** The language table covers exactly the default code extensions:
    [get_language_for_extension] answers the fallback label [text] for an
    extension exactly when its lower-cased form is not a default code
    extension. *)
Theorem get_language_for_extension_text (lower : str → str) (ext : str) :
  get_language_for_extension lower ext = u "text"
  ↔ lower ext ∉ code_extensions default_config.
Proof.
  unfold get_language_for_extension.
  rewrite <- language_mapping_keys, not_elem_of_dom.
  destruct (LANGUAGE_MAPPING !! lower ext) as [language |] eqn:Hext;
    cbn [default].
  - split; [| discriminate].
    intros Htext. by apply language_mapping_values in Hext.
  - by split.
Qed.

(** ** The sanitizer, continued *)

Lemma sanitize_code_point_twice (c : N) :
  flat_map sanitize_code_point (sanitize_code_point c) = sanitize_code_point c.
Proof.
  unfold sanitize_code_point at 2 3.
  destruct (is_control c && negb ((c =? 9) || (c =? 10) || (c =? 13))) eqn:Hc;
    [reflexivity |].
  destruct (N.eqb_spec c 419); [vm_compute; reflexivity |].
  destruct (N.eqb_spec c 1827); [vm_compute; reflexivity |].
  destruct (N.eqb_spec c 1714); [vm_compute; reflexivity |].
  cbn [flat_map]. rewrite app_nil_r. unfold sanitize_code_point. rewrite Hc.
  destruct (N.eqb_spec c 419); [done |].
  destruct (N.eqb_spec c 1827); [done |].
  destruct (N.eqb_spec c 1714); [done |].
  reflexivity.
Qed.

(** Sanitizing is idempotent: a sanitized text is not changed by a
    second pass of [clean_text_content]. *)
Theorem clean_text_content_idempotent (content : str) :
  clean_text_content (clean_text_content content) = clean_text_content content.
Proof.
  rewrite !clean_text_content_pointwise, flat_map_flat_map.
  apply flat_map_ext. intros c. apply sanitize_code_point_twice.
Qed.

(** A text is returned as it is when it holds no control character other
    than tab, line feed and carriage return and none of the three keys of
    the replacement table; in particular printable ASCII text with tabs
    and line breaks is never altered. *)
Theorem clean_text_content_keeps_plain_text (content : str) :
  Forall (λ c, in_removed_class c = false
               ∧ c ≠ 0x01A3 ∧ c ≠ 0x0723 ∧ c ≠ 0x06B2) content →
  clean_text_content content = content.
Proof.
  intros Hplain. rewrite clean_text_content_pointwise.
  induction Hplain as [| c content (Hclass & H1 & H2 & H3) _ IH]; [reflexivity |].
  cbn [flat_map]. rewrite IH. unfold sanitize_code_point.
  rewrite <- in_removed_class_control, Hclass.
  destruct (N.eqb_spec c 419); [done |].
  destruct (N.eqb_spec c 1827); [done |].
  destruct (N.eqb_spec c 1714); [done |].
  reflexivity.
Qed.

Lemma clean_text_content_keeps_plain_text_witness :
  clean_text_content (u "int x = 0;" ++ [13; 10; 9] ++ u "return x;")
  = u "int x = 0;" ++ [13; 10; 9] ++ u "return x;".
Proof.
  apply clean_text_content_keeps_plain_text.
  apply Forall_forall. intros c Hc.
  apply list_elem_of_In in Hc. vm_compute in Hc.
  repeat (destruct Hc as [<- | Hc]; [repeat split; discriminate |]).
  destruct Hc.
Defined.

(** ** The reader, continued *)

Lemma try_encodings_first_answer (f : OsFile) (failed : list Encoding)
    (encoding : Encoding) (rest : list Encoding) :
  Forall (λ e, os_read_strict f e = RaisesUnicodeError) failed →
  try_encodings f (failed ++ encoding :: rest)
  = match os_read_strict f encoding with
    | Decoded content =>
      (Some (inl (clean_text_content content)),
       map CallOpenStrict (failed ++ [encoding]))
    | RaisesOSError message =>
      (Some (inr message), map CallOpenStrict (failed ++ [encoding]))
    | RaisesUnicodeError =>
      ((try_encodings f rest).1,
       map CallOpenStrict (failed ++ [encoding]) ++ (try_encodings f rest).2)
    end.
Proof.
  induction 1 as [| e failed He _ IH]; cbn [app try_encodings map].
  - destruct (os_read_strict f encoding); try reflexivity.
    by destruct (try_encodings f rest).
  - rewrite He, IH.
    destruct (os_read_strict f encoding); try reflexivity.
Qed.

Lemma try_encodings_all_fail (f : OsFile) (tried : list Encoding) :
  Forall (λ e, os_read_strict f e = RaisesUnicodeError) tried →
  try_encodings f tried = (None, map CallOpenStrict tried).
Proof.
  induction 1 as [| e tried He _ IH]; cbn [try_encodings map]; [reflexivity |].
  by rewrite He, IH.
Qed.

(** The encodings are tried in the fixed order utf-8, gbk, gb2312,
    utf-16, latin1; the text of the first one that decodes is sanitized
    and returned, and no later encoding is opened. *)
Theorem read_file_safely_first_decoding (f : OsFile) (max_size : Z)
    (failed : list Encoding) (encoding : Encoding) (rest : list Encoding)
    (content : str) :
  (get_file_info_size f ≤ max_size)%Z →
  [utf_8; gbk; gb2312; utf_16; latin1] = failed ++ encoding :: rest →
  Forall (λ e, os_read_strict f e = RaisesUnicodeError) failed →
  os_read_strict f encoding = Decoded content →
  read_file_safely f max_size
  = (clean_text_content content,
     CallStat :: map CallOpenStrict (failed ++ [encoding])).
Proof.
  intros Hsize Hsplit Hfailed Hdecoded. unfold read_file_safely.
  destruct (Z.ltb_spec max_size (get_file_info_size f)); [lia |].
  cbv zeta. rewrite Hsplit, (try_encodings_first_answer f failed encoding rest Hfailed).
  by rewrite Hdecoded.
Qed.

Lemma read_file_safely_first_decoding_witness :
  let f := {| os_stat := inl 36%Z;
              os_read_strict := λ e, match e with
                                     | utf_8 => RaisesUnicodeError
                                     | _ => Decoded (u "// gbk text" ++ [7])
                                     end;
              os_read_ignore := inl [] |} in
  read_file_safely f 1024
  = (clean_text_content (u "// gbk text" ++ [7]),
     CallStat :: map CallOpenStrict ([utf_8] ++ [gbk])).
Proof.
  intros f.
  apply (read_file_safely_first_decoding f 1024 [utf_8] gbk [gb2312; utf_16; latin1]).
  - cbn. lia.
  - reflexivity.
  - repeat constructor.
  - reflexivity.
Defined.

(** An [OSError] raised while a file is opened or read ends the attempts:
    the result is the notice [[无法读取文件: MESSAGE]] and no further
    encoding is tried. *)
Theorem read_file_safely_os_error (f : OsFile) (max_size : Z)
    (failed : list Encoding) (encoding : Encoding) (rest : list Encoding)
    (message : str) :
  (get_file_info_size f ≤ max_size)%Z →
  [utf_8; gbk; gb2312; utf_16; latin1] = failed ++ encoding :: rest →
  Forall (λ e, os_read_strict f e = RaisesUnicodeError) failed →
  os_read_strict f encoding = RaisesOSError message →
  read_file_safely f max_size
  = (u "[无法读取文件: " ++ message ++ u "]",
     CallStat :: map CallOpenStrict (failed ++ [encoding])).
Proof.
  intros Hsize Hsplit Hfailed Hraised. unfold read_file_safely.
  destruct (Z.ltb_spec max_size (get_file_info_size f)); [lia |].
  cbv zeta. rewrite Hsplit, (try_encodings_first_answer f failed encoding rest Hfailed).
  by rewrite Hraised.
Qed.

Lemma read_file_safely_os_error_witness :
  let f := {| os_stat := inl 36%Z;
              os_read_strict := λ _, RaisesOSError (u "Permission denied");
              os_read_ignore := inl [] |} in
  read_file_safely f 1024
  = (u "[无法读取文件: " ++ u "Permission denied" ++ u "]",
     CallStat :: map CallOpenStrict ([] ++ [utf_8])).
Proof.
  intros f.
  apply (read_file_safely_os_error f 1024 [] utf_8 [gbk; gb2312; utf_16; latin1]).
  - cbn. lia.
  - reflexivity.
  - constructor.
  - reflexivity.
Defined.

(** When all five encodings raise a decoding error, the file is read once
    more with [errors='ignore']: its sanitized text is returned, or the
    notice of the [OSError] of that last read. *)
Theorem read_file_safely_lossy_fallback (f : OsFile) (max_size : Z) :
  (get_file_info_size f ≤ max_size)%Z →
  (∀ e, os_read_strict f e = RaisesUnicodeError) →
  read_file_safely f max_size
  = (match os_read_ignore f with
     | inl content => clean_text_content content
     | inr message => u "[无法读取文件: " ++ message ++ u "]"
     end,
     [CallStat; CallOpenStrict utf_8; CallOpenStrict gbk; CallOpenStrict gb2312;
      CallOpenStrict utf_16; CallOpenStrict latin1; CallOpenIgnore]).
Proof.
  intros Hsize Hall. unfold read_file_safely.
  destruct (Z.ltb_spec max_size (get_file_info_size f)); [lia |].
  cbv zeta. rewrite try_encodings_all_fail
    by (apply Forall_forall; intros e _; apply Hall).
  by destruct (os_read_ignore f).
Qed.

Lemma read_file_safely_lossy_fallback_witness :
  let f := {| os_stat := inl 3%Z;
              os_read_strict := λ _, RaisesUnicodeError;
              os_read_ignore := inl (u "ab") |} in
  (read_file_safely f 1024).1 = clean_text_content (u "ab").
Proof.
  intros f.
  exact (f_equal fst (read_file_safely_lossy_fallback f 1024 ltac:(cbn; lia)
                        (λ _, eq_refl))).
Defined.

Lemma try_encodings_opens_first (f : OsFile) (encoding : Encoding)
    (rest : list Encoding) :
  ∃ calls, (try_encodings f (encoding :: rest)).2 = CallOpenStrict encoding :: calls.
Proof.
  cbn [try_encodings]. destruct (os_read_strict f encoding); try (by eexists).
  destruct (try_encodings f rest). by eexists.
Qed.

(** A failing [stat] counts as the size 0: for a non-negative maximum
    the file is then handled exactly like a file of size 0, so it is
    opened and read. *)
Theorem read_file_safely_stat_failure (f : OsFile) (max_size : Z) (message : str) :
  os_stat f = inr message →
  (0 ≤ max_size)%Z →
  read_file_safely f max_size = read_file_safely (with_stat_size f 0) max_size
  ∧ ∃ calls, (read_file_safely f max_size).2
             = CallStat :: CallOpenStrict utf_8 :: calls.
Proof.
  intros Hstat Hmax.
  assert (read_file_safely f max_size = read_file_safely (with_stat_size f 0) max_size)
    as Hsame.
  { unfold read_file_safely, get_file_info_size. rewrite Hstat. reflexivity. }
  split; [exact Hsame |].
  unfold read_file_safely, get_file_info_size. rewrite Hstat.
  destruct (Z.ltb_spec max_size 0); [lia |]. cbv zeta.
  destruct (try_encodings_opens_first f utf_8 [gbk; gb2312; utf_16; latin1])
    as (calls & Hcalls).
  destruct (try_encodings f [utf_8; gbk; gb2312; utf_16; latin1])
    as [[[text | msg] |] calls0]; cbn [snd] in Hcalls; subst calls0.
  - by eexists.
  - by eexists.
  - destruct (os_read_ignore f); cbn [snd app]; by eexists.
Qed.

Lemma read_file_safely_stat_failure_witness :
  let f := {| os_stat := inr (u "No such file or directory");
              os_read_strict := λ _, RaisesOSError (u "No such file or directory");
              os_read_ignore := inr (u "No such file or directory") |} in
  read_file_safely f 1024 = read_file_safely (with_stat_size f 0) 1024.
Proof.
  intros f.
  exact (proj1 (read_file_safely_stat_failure f 1024
                  (u "No such file or directory") eq_refl ltac:(lia))).
Defined.

(** ** Project discovery, continued *)

(** [discover_projects] returns, in the order of [iterdir], exactly the
    entries of the code directory that are directories, are not ignored
    and are projects.  A project that lies deeper is never returned on
    its own: the entry of the code directory above it is a project and is
    returned in its place. *)
Theorem discover_projects_top_level_projects (lower : str → str) (config : Config)
    (name : str) (entries : list Node) :
  discover_projects lower config (Some (Dir name entries))
  = inr (map (λ d, ([node_name d], d))
           (List.filter
              (λ d, is_dir d
                    && negb (should_ignore_dir d (ignore_dirs config))
                    && _is_project_directory lower config d)
              entries)).
Proof.
  cbn [discover_projects]. f_equal.
  induction entries as [| item entries IH]; [reflexivity |].
  cbn [flat_map List.filter]. rewrite IH.
  destruct (is_dir item && negb (should_ignore_dir item (ignore_dirs config)));
    cbn [andb]; [| reflexivity].
  rewrite find_project_directories_result.
  by destruct (_is_project_directory lower config item).
Qed.

(** ** The tree renderer, continued *)

Lemma str_leb_antisym (s t : str) :
  str_leb s t = true → str_leb t s = true → s = t.
Proof.
  revert t. induction s as [| c s IH]; intros [| d t]; cbn; try discriminate;
    [reflexivity |].
  rewrite !orb_true_iff, !andb_true_iff, !N.ltb_lt, !N.eqb_eq.
  intros [Hcd | [-> Hst]] [Hdc | [Heq Hts]]; try lia.
  f_equal. by apply IH.
Qed.

Section SortingUnique.
Context {A K : Type} (key : A → K) (kle : K → K → bool).
Context (kle_total : ∀ a b, kle a b = true ∨ kle b a = true).
Context (kle_trans : ∀ a b c, kle a b = true → kle b c = true → kle a c = true).
Context (kle_antisym : ∀ a b, kle a b = true → kle b a = true → a = b).

Local Abbreviation le := (λ x y, kle (key x) (key y)).

Lemma sorted_permutation_unique (s s' : list A) :
  StronglySorted (λ x y, le x y = true) s →
  StronglySorted (λ x y, le x y = true) s' →
  s ≡ₚ s' →
  NoDup (map key s) →
  s = s'.
Proof.
  intros Hs. revert s'.
  induction Hs as [| x t Ht IH Hx]; intros s' Hs' Hperm Hkeys.
  - by apply Permutation_nil_l in Hperm.
  - destruct Hs' as [| y t' Ht' Hy].
    { by apply Permutation_nil_r in Hperm. }
    apply NoDup_cons in Hkeys as [Hfresh Hkeys].
    assert (x = y) as <-.
    { assert (y ∈ x :: t) as Hyin by (rewrite Hperm; left).
      assert (x ∈ y :: t') as Hxin by (rewrite <- Hperm; left).
      apply elem_of_cons in Hyin as [-> | Hyin]; [reflexivity |].
      apply elem_of_cons in Hxin as [-> | Hxin]; [reflexivity |].
      exfalso. apply Hfresh.
      rewrite Forall_forall in Hx, Hy.
      rewrite (kle_antisym (key x) (key y) (Hx y Hyin) (Hy x Hxin)).
      apply list_elem_of_fmap. by exists y. }
    f_equal. apply IH; [exact Ht' | by apply Permutation_cons_inv in Hperm
                        | exact Hkeys].
Qed.

Lemma py_sorted_permutation (l l' : list A) :
  l ≡ₚ l' → NoDup (map key l) → py_sorted le l = py_sorted le l'.
Proof.
  intros Hperm Hkeys.
  apply sorted_permutation_unique.
  - apply py_sorted_sorted; [intros x y; apply kle_total |].
    intros x y z. apply kle_trans.
  - apply py_sorted_sorted; [intros x y; apply kle_total |].
    intros x y z. apply kle_trans.
  - by rewrite !py_sorted_perm.
  - by rewrite (py_sorted_perm le l).
Qed.
End SortingUnique.

Lemma key_leb_total (a b : bool * str) : key_leb a b = true ∨ key_leb b a = true.
Proof.
  unfold key_leb. destruct a as [[] s], b as [[] t]; cbn [fst snd]; auto;
    apply str_leb_total.
Qed.

Lemma key_leb_trans (a b c : bool * str) :
  key_leb a b = true → key_leb b c = true → key_leb a c = true.
Proof.
  unfold key_leb. destruct a as [[] s], b as [[] t], c as [[] r]; cbn [fst snd];
    auto; try discriminate; apply str_leb_trans.
Qed.

Lemma key_leb_antisym (a b : bool * str) :
  key_leb a b = true → key_leb b a = true → a = b.
Proof.
  unfold key_leb. destruct a as [[] s], b as [[] t]; cbn [fst snd];
    try discriminate; intros H1 H2; f_equal; by apply str_leb_antisym.
Qed.

(** The rendered tree does not depend on the order in which [iterdir]
    yields the entries of the directory, as long as no two visible
    entries of the same kind have the same lower-cased name. *)
Theorem generate_tree_structure_order_independent
    (fnmatch : str → str → bool) (lower : str → str)
    (ignore_dirs ignore_files : gset str) (max_depth current_depth : nat)
    (name : str) (entries entries' : list Node) :
  entries ≡ₚ entries' →
  NoDup (map (item_key lower)
           (visible_items fnmatch (Dir name entries) ignore_dirs ignore_files)) →
  generate_tree_structure fnmatch lower (Dir name entries) ignore_dirs ignore_files
    max_depth current_depth
  = generate_tree_structure fnmatch lower (Dir name entries') ignore_dirs
      ignore_files max_depth current_depth.
Proof.
  intros Hperm Hkeys. unfold generate_tree_structure.
  destruct (max_depth - current_depth)%nat as [| depth_left]; [reflexivity |].
  cbn [tree_lines]. f_equal.
  apply (py_sorted_permutation (item_key lower) key_leb key_leb_total
           key_leb_trans key_leb_antisym); [| exact Hkeys].
  unfold visible_items. cbn [iterdir]. by rewrite Hperm.
Qed.

Lemma generate_tree_structure_order_independent_witness :
  generate_tree_structure glob_match ascii_lower
    (Dir (u "demo") [File (u "b.txt") 12; Dir (u "A") [File (u "z.c") 30];
                     File (u "a.c") 5])
    (ignore_dirs default_config) (ignore_files default_config) 10 0
  = generate_tree_structure glob_match ascii_lower
      (Dir (u "demo") [File (u "a.c") 5; File (u "b.txt") 12;
                       Dir (u "A") [File (u "z.c") 30]])
      (ignore_dirs default_config) (ignore_files default_config) 10 0.
Proof.
  apply generate_tree_structure_order_independent.
  - apply Permutation_sym. apply Permutation_cons_app with (l1 := [_; _]) (l2 := []).
    reflexivity.
  - vm_compute. repeat constructor; rewrite ?elem_of_cons, ?elem_of_nil;
      intros H; repeat destruct H as [H | H]; try discriminate H; exact H.
Defined.

(** ** The document renderer *)

Lemma rglob_from_nodes (parent : Path) (p : Node) :
  map snd (rglob_from parent p) = rglob p.
Proof.
  revert parent.
  induction p as [name size | name entries IH] using Node_ind_nested;
    intros parent; [reflexivity |].
  cbn [rglob_from rglob]. rewrite map_app, map_map. cbn [snd].
  rewrite map_id. f_equal.
  induction IH as [| e entries He _ IHentries]; [reflexivity |].
  cbn [flat_map]. by rewrite map_app, He, IHentries.
Qed.

Lemma filter_map_snd {A B} (p : B → bool) (l : list (A * B)) :
  map snd (List.filter (λ x, p x.2) l) = List.filter p (map snd l).
Proof.
  induction l as [| [a b] l IH]; [reflexivity |].
  cbn [List.filter map snd]. destruct (p b); cbn [map snd]; by rewrite IH.
Qed.

Lemma filter_all {A} (p : A → bool) (l : list A) :
  Forall (λ x, p x = true) l → List.filter p l = l.
Proof.
  induction 1 as [| x l Hx _ IH]; [reflexivity |].
  cbn [List.filter]. by rewrite Hx, IH.
Qed.

Section RendererFacts.
Context (fnmatch : str → str → bool) (lower upper : str → str) (isspace : N → bool).
Context (strftime : datetime → str) (path_str : Path → str).
Context (config : Config).
Context (read_strict : Path → Encoding → StrictRead) (read_ignore : Path → str + str).
Context (modified : Path → datetime).

Local Abbreviation section_of :=
  (_generate_file_section lower upper strftime path_str config read_strict
     read_ignore modified).
Local Abbreviation sections_of :=
  (_generate_file_sections fnmatch lower upper strftime path_str config
     read_strict read_ignore modified).
Local Abbreviation lines_of :=
  (markdown_lines fnmatch lower upper isspace strftime path_str config
     read_strict read_ignore modified).
Local Abbreviation code_file := (is_code_file fnmatch lower config).

Lemma is_code_file_retained (item : Node) :
  code_file item
  = retained fnmatch config item
    && set_mem (lower (suffix (node_name item))) (code_extensions config).
Proof.
  unfold is_code_file, retained.
  by destruct (is_file item), (set_mem _ _), (should_ignore_file _ _ _).
Qed.

Lemma bucket_code_or_header (ext : str) :
  bucket_eqb (bucket_of_extension config ext) CodeBucket
  || bucket_eqb (bucket_of_extension config ext) HeaderBucket
  = set_mem ext (code_extensions config).
Proof.
  unfold bucket_of_extension.
  destruct (set_mem ext (code_extensions config));
    [by destruct (str_in _ _) | by destruct (set_mem _ _)].
Qed.

Lemma code_files_counted (items : list Node) :
  let exts := map (λ f, lower (suffix (node_name f)))
                  (List.filter (retained fnmatch config) items) in
  length (List.filter code_file items)
  = (count_bucket config CodeBucket exts + count_bucket config HeaderBucket exts)%nat.
Proof.
  cbv zeta. unfold count_bucket.
  induction items as [| item items IH]; [reflexivity |].
  cbn [List.filter]. rewrite is_code_file_retained.
  destruct (retained fnmatch config item); cbn [andb]; [| exact IH].
  cbn [map List.filter].
  pose proof (bucket_code_or_header (lower (suffix (node_name item)))) as Hb.
  destruct (bucket_of_extension config (lower (suffix (node_name item))));
    cbn [bucket_eqb orb] in Hb |- *; rewrite <- Hb; cbn [length]; lia.
Qed.

Lemma file_sections_fold (files : list (Path * Node))
    (start : list str * list (Path * Access)) :
  foldl (λ sections file_path,
           let '(lines, calls) := section_of file_path in
           (sections.1 ++ lines,
            sections.2 ++ map (λ c, (file_path.1, AccessContent c)) calls))
        start files
  = (start.1 ++ flat_map (λ file_path, (section_of file_path).1) files,
     start.2 ++ flat_map (λ file_path,
                            map (λ c, (file_path.1, AccessContent c))
                              (section_of file_path).2)
                  files).
Proof.
  revert start. induction files as [| file_path files IH]; intros [lines calls].
  - cbn. by rewrite !app_nil_r.
  - cbn [foldl flat_map]. rewrite IH.
    destruct (section_of file_path) as [l c]. cbn [fst snd].
    by rewrite <- !app_assoc.
Qed.

(** The file sections of a document are those of the files of the
    project, at any depth, that have a code extension and match no
    file-name ignore pattern, in the order of their lower-cased names;
    their number is the sum of the code and header counts of
    [analyze_project]. *)
Theorem file_sections_are_the_code_files
    (root_path : Path) (now : datetime) (project_parts : Path) (project : Node) :
  let files := sorted_code_files fnmatch lower config project in
  let st := stats (analyze_project fnmatch lower config root_path now
                     project_parts project) in
  map snd files ≡ₚ List.filter code_file (rglob project)
  ∧ StronglySorted
      (λ x y, str_leb (lower (node_name x.2)) (lower (node_name y.2)) = true) files
  ∧ length files = (code_files st + header_files st)%nat
  ∧ (sections_of project).1 = flat_map (λ file_path, (section_of file_path).1) files.
Proof.
  cbv zeta.
  assert (map snd (sorted_code_files fnmatch lower config project)
          ≡ₚ List.filter code_file (rglob project)) as Hperm.
  { unfold sorted_code_files. rewrite py_sorted_perm, filter_map_snd.
    by rewrite rglob_from_nodes. }
  split; [exact Hperm |]. split; [| split].
  - apply py_sorted_sorted.
    + intros x y. apply str_leb_total.
    + intros x y z. apply str_leb_trans.
  - rewrite <- (length_map snd).
    rewrite (Permutation_length Hperm), code_files_counted.
    unfold analyze_project. cbn [stats].
    destruct (analyze_loop fnmatch lower config (rglob project) empty_stats)
      as (Hc & Hh & _).
    cbv zeta in Hc, Hh. rewrite Hc, Hh. reflexivity.
  - unfold _generate_file_sections. by rewrite file_sections_fold.
Qed.

Lemma read_file_safely_calls_within_limit (f : OsFile) (max_size : Z) (call : FsCall) :
  call ∈ (read_file_safely f max_size).2 →
  opens_file call = true →
  (get_file_info_size f ≤ max_size)%Z.
Proof.
  unfold read_file_safely.
  destruct (Z.ltb_spec max_size (get_file_info_size f)); [| lia].
  cbn [snd]. intros Hin Hopens.
  apply list_elem_of_singleton in Hin. subst call. discriminate Hopens.
Qed.

Lemma visible_items_entries (root_path : Node) (ignore_dirs ignore_files : gset str)
    (x : Node * bool) :
  x ∈ visible_items fnmatch root_path ignore_dirs ignore_files →
  x.1 ∈ iterdir root_path.
Proof.
  unfold visible_items. intros Hx.
  apply list_elem_of_omap in Hx as (item & Hitem & Hx).
  destruct (is_dir item && _); [by injection Hx as <- |].
  destruct (is_file item && _); [by injection Hx as <- | discriminate Hx].
Qed.

Lemma rglob_from_entry (parent : Path) (name : str) (entries : list Node) (e : Node) :
  e ∈ entries →
  (parent ++ [node_name e], e) ∈ rglob_from parent (Dir name entries).
Proof.
  intros He. cbn [rglob_from]. apply elem_of_app. left.
  apply list_elem_of_fmap. by exists e.
Qed.

Lemma rglob_from_below (parent : Path) (name : str) (entries : list Node)
    (e : Node) (x : Path * Node) :
  e ∈ entries →
  x ∈ rglob_from (parent ++ [node_name e]) e →
  x ∈ rglob_from parent (Dir name entries).
Proof.
  intros He Hx. cbn [rglob_from]. apply elem_of_app. right.
  apply elem_of_flat_map. by exists e.
Qed.

(** The tree walk only asks for the kind of the directory it renders and
    of entries below it, and lists directories. *)
Lemma tree_accesses_paths (ignore_dirs ignore_files : gset str) (depth_left : nat)
    (parent : Path) (root_path : Node) (p : Path) (a : Access) :
  (p, a) ∈ tree_accesses fnmatch lower ignore_dirs ignore_files depth_left parent
             root_path →
  is_content_access a = false
  ∧ (p = parent ∨ ∃ node, (p, node) ∈ rglob_from parent root_path).
Proof.
  revert parent root_path.
  induction depth_left as [| depth_left IH]; intros parent root_path Hin;
    cbn [tree_accesses] in Hin; [by apply elem_of_nil in Hin |].
  rewrite !elem_of_app in Hin. destruct Hin as [Hin | [Hin | Hin]].
  - rewrite !elem_of_cons in Hin.
    destruct Hin as [[= -> ->] | [[= -> ->] | Hin]];
      [by split; [| left] | by split; [| left] | by apply elem_of_nil in Hin].
  - destruct root_path as [name size | name entries]; cbn [is_dir iterdir] in Hin;
      [by apply elem_of_nil in Hin |].
    apply elem_of_cons in Hin as [[= -> ->] | Hin]; [by split; [| left] |].
    apply elem_of_flat_map in Hin as (item & Hitem & Hin). cbv zeta in Hin.
    assert (a ≠ AccessIsDir ∧ a ≠ AccessIsFile ∨ p = parent ++ [node_name item]
            ∧ is_content_access a = false) as [[Hd Hf] | [-> Ha]].
    { apply elem_of_cons in Hin as [[= -> ->] | Hin]; [by right |].
      destruct (is_dir item && _); [by apply elem_of_nil in Hin |].
      apply list_elem_of_singleton in Hin. injection Hin as -> ->. by right. }
    + exfalso. apply elem_of_cons in Hin as [[= _ ->] | Hin]; [by apply Hd |].
      destruct (is_dir item && _); [by apply elem_of_nil in Hin |].
      apply list_elem_of_singleton in Hin. injection Hin as _ ->. by apply Hf.
    + split; [exact Ha |]. right. exists item. by apply rglob_from_entry.
  - apply elem_of_flat_map in Hin as ([item kind] & Hx & Hin). cbn [fst snd] in Hin.
    rewrite py_sorted_perm in Hx. apply visible_items_entries in Hx.
    cbn [fst] in Hx.
    destruct kind; [| by apply elem_of_nil in Hin].
    destruct (IH _ _ Hin) as [Ha Hp]. split; [exact Ha |]. right.
    destruct root_path as [name size | name entries]; cbn [iterdir] in Hx;
      [by apply elem_of_nil in Hx |].
    destruct Hp as [-> | [node Hnode]].
    + exists item. by apply rglob_from_entry.
    + exists node. by apply rglob_from_below with item.
Qed.

Lemma file_sections_accesses (project : Node) (p : Path) (a : Access) :
  (p, a) ∈ (sections_of project).2 →
  (p = [] ∧ a = AccessRglob)
  ∨ (a = AccessIsFile ∧ ∃ node, (p, node) ∈ rglob_from [] project)
  ∨ (∃ file call,
       a = AccessContent call
       ∧ (p, file) ∈ List.filter (λ item, code_file item.2) (rglob_from [] project)
       ∧ call ∈ (section_of (p, file)).2).
Proof.
  unfold _generate_file_sections. rewrite file_sections_fold. cbn [fst snd].
  rewrite elem_of_app, elem_of_cons. intros [[[= -> ->] | Hin] | Hin].
  - by left.
  - right. left. apply list_elem_of_fmap in Hin as ([rel node] & [= -> ->] & Hin).
    split; [reflexivity |]. by exists node.
  - right. right.
    apply elem_of_flat_map in Hin as ([rel file] & Hfile & Hin).
    apply list_elem_of_fmap in Hin as (c & [= -> ->] & Hc). cbn [fst] in *.
    exists file, c. split; [reflexivity |]. split; [| exact Hc].
    unfold sorted_code_files in Hfile. by rewrite py_sorted_perm in Hfile.
Qed.

Lemma markdown_accesses (project_info : ProjectInfo) (project : Node) :
  (_generate_markdown fnmatch lower upper isspace strftime path_str config
     read_strict read_ignore modified project_info project).2
  = (if include_project_structure config
     then tree_accesses fnmatch lower (ignore_dirs config) (ignore_files config)
            10 [] project
     else [])
    ++ (if include_file_content config then (sections_of project).2 else []).
Proof.
  unfold _generate_markdown, markdown_lines.
  destruct (include_file_content config).
  - by destruct (sections_of project) as [file_sections calls].
  - cbn [snd]. by rewrite app_nil_r.
Qed.



Lemma has_text_app (a b : str) :
  has_text isspace (a ++ b) = has_text isspace a || has_text isspace b.
Proof. apply existsb_app. Qed.

Lemma render_items_have_text (subtree : Node → list str)
    (items : list (Node * bool)) :
  isspace 0x251C = false → isspace 0x2514 = false →
  (∀ d, Forall (λ line, has_text isspace line = true) (subtree d)) →
  Forall (λ line, has_text isspace line = true) (render_items subtree items).
Proof.
  intros Hmiddle Hlast Hsub.
  assert (∀ rest, has_text isspace (last_prefix ++ rest) = true) as Hl.
  { intros rest. rewrite has_text_app. unfold last_prefix, has_text.
    cbn [existsb]. by rewrite Hlast. }
  assert (∀ rest, has_text isspace (middle_prefix ++ rest) = true) as Hm.
  { intros rest. rewrite has_text_app. unfold middle_prefix, has_text.
    cbn [existsb]. by rewrite Hmiddle. }
  induction items as [| [item is_dir] rest IH]; [constructor |].
  cbn [render_items]. apply Forall_app. split; [| exact IH].
  destruct is_dir.
  - constructor; [destruct rest; [apply Hl | apply Hm] |].
    apply Forall_fmap. eapply Forall_impl; [apply Hsub |].
    intros line Hline. unfold compose. cbv beta.
    rewrite has_text_app, Hline. apply orb_true_r.
  - constructor; [destruct rest; [apply Hl | apply Hm] | constructor].
Qed.

Lemma tree_lines_have_text (ignore_dirs ignore_files : gset str)
    (depth_left : nat) (root_path : Node) :
  isspace 0x251C = false → isspace 0x2514 = false → isspace 0x5B = false →
  Forall (λ line, has_text isspace line = true)
    (tree_lines fnmatch lower ignore_dirs ignore_files depth_left root_path).
Proof.
  intros Hmiddle Hlast Hbracket. revert root_path.
  induction depth_left as [| depth_left IH]; intros root_path; cbn [tree_lines].
  - constructor; [| constructor].
    unfold too_deep_marker, has_text. cbn [existsb]. by rewrite Hbracket.
  - by apply render_items_have_text.
Qed.

(** Every line of the rendered tree holds a character that is not
    whitespace, provided the two connector glyphs and the opening bracket
    are not whitespace: the test [tree_line.strip()] of
    [_generate_markdown] drops no line, and the structure block of the
    document holds the root line and then the whole tree, or nothing at
    all when the tree is empty. *)
Theorem markdown_structure_keeps_every_tree_line
    (project_info : ProjectInfo) (project : Node) :
  isspace 0x251C = false → isspace 0x2514 = false → isspace 0x5B = false →
  include_project_structure config = true →
  let tree := generate_tree_structure fnmatch lower project (ignore_dirs config)
                (ignore_files config) 10 0 in
  List.filter (has_text isspace) tree = tree
  ∧ ∃ rest,
      (lines_of project_info project).1
      = [u "# " ++ name project_info;
         [];
         u "## 项目信息";
         u "- **项目名称**: " ++ name project_info;
         u "- **生成时间**: " ++ strftime (generated_time project_info);
         u "- **项目路径**: `" ++ path_str (source_path project_info) ++ u "`";
         [];
         u "## 项目结构"; []; u "```"]
        ++ match tree with
           | [] => []
           | _ :: _ => (name project_info ++ u "/") :: tree
           end
        ++ [u "```"; []] ++ rest.
Proof.
  intros Hmiddle Hlast Hbracket Hstructure. cbv zeta.
  assert (List.filter (has_text isspace)
            (generate_tree_structure fnmatch lower project (ignore_dirs config)
               (ignore_files config) 10 0)
          = generate_tree_structure fnmatch lower project (ignore_dirs config)
              (ignore_files config) 10 0) as Hkept.
  { apply filter_all. unfold generate_tree_structure.
    by apply tree_lines_have_text. }
  split; [exact Hkept |].
  unfold markdown_lines. rewrite Hstructure, Hkept.
  set (tree := generate_tree_structure fnmatch lower project (ignore_dirs config)
                 (ignore_files config) 10 0).
  destruct (include_file_stats config), (include_file_content config);
    try destruct (sections_of project) as [file_sections calls];
    cbn [fst]; eexists; rewrite <- ?app_assoc; cbn [app];
    repeat f_equal.
Qed.
End RendererFacts.

(** ** The entry point *)

Section MainFacts.
Context {Exception World : Type}.
Context (code_dir_exists : World → bool)
        (analyze_project_step : Path → World → (Exception + ProjectInfo) * World)
        (ensure_directory : Path → World → (Exception + unit) * World)
        (render_step : ProjectInfo → World → (Exception + str) * World)
        (write_text : Path → str → World → (Exception + unit) * World)
        (discover_projects_step : World → (Exception + list Path) * World)
        (generate_index_step : list ProjectInfo → World → (Exception + unit) * World).

Lemma convert_each_console {W : Type}
    (analyze : Path → W → (Exception + ProjectInfo) * W)
    (ensure : Path → W → (Exception + unit) * W)
    (render : ProjectInfo → W → (Exception + str) * W)
    (write : Path → str → W → (Exception + unit) * W)
    (projects : list Path) (success_count : nat) (s : @State Exception W) :
  ∃ n s' new,
    convert_each analyze ensure render write projects success_count s = (inr n, s')
    ∧ console s' = console s ++ new
    ∧ (success_count ≤ n ≤ success_count + length projects)%nat
    ∧ (n = (success_count + length projects)%nat →
       Forall (λ m, is_failure m = false) new).
Proof.
  revert success_count s.
  induction projects as [| project_path rest IH]; intros success_count s.
  - exists success_count, s, []. cbn. rewrite app_nil_r.
    repeat split; try lia. constructor.
  - cbn [convert_each]. unfold bind at 1.
    destruct (convert_project_returns analyze ensure render write project_path s)
      as (ok & s1 & -> & Hconsole).
    destruct (IH (if ok then S success_count else success_count) s1)
      as (n & s' & new & -> & Hnew & Hn & Hall).
    destruct Hconsole as [(-> & target & Hc) | (-> & e & Hc)].
    + exists n, s', ([MsgConverting project_path; MsgConverted target] ++ new).
      split; [reflexivity |]. split; [by rewrite Hnew, Hc, <- app_assoc |].
      cbn [length]. split; [lia |]. intros Hfull.
      apply Forall_app. split; [by repeat constructor | apply Hall; lia].
    + exists n, s', ([MsgConverting project_path; MsgFailed project_path e] ++ new).
      split; [reflexivity |]. split; [by rewrite Hnew, Hc, <- app_assoc |].
      cbn [length]. split; [lia |]. intros Hfull. lia.
Qed.

Lemma convert_all_projects_console {W : Type}
    (analyze : Path → W → (Exception + ProjectInfo) * W)
    (ensure : Path → W → (Exception + unit) * W)
    (render : ProjectInfo → W → (Exception + str) * W)
    (write : Path → str → W → (Exception + unit) * W)
    (discover : W → (Exception + list Path) * W)
    (s s' : @State Exception W) (success_count total_count : nat) :
  convert_all_projects analyze ensure render write discover s
  = (inr (success_count, total_count), s') →
  (success_count ≤ total_count)%nat
  ∧ ∃ new, console s' = console s ++ new
           ∧ (success_count = total_count → Forall (λ m, is_failure m = false) new).
Proof.
  unfold convert_all_projects. unfold bind at 1. unfold lift at 1.
  destruct (discover (world s)) as [[e | projects] w1]; [discriminate |].
  destruct projects as [| project_path rest].
  - cbv [bind print ret world console]. intros [= <- <- <-].
    split; [lia |]. exists [MsgNoProjects]. split; [reflexivity |].
    intros _. by repeat constructor.
  - unfold bind at 1. unfold print at 1. cbn [world console].
    set (s1 := {| world := w1;
                  console := console s ++ [MsgFound (length (project_path :: rest))] |}).
    destruct (convert_each_console analyze ensure render write
                (project_path :: rest) 0 s1)
      as (n & s2 & new & Heach & Hnew & Hn & Hall).
    unfold bind at 1. rewrite Heach. cbv [ret]. intros [= <- <- <-].
    cbn [length] in Hn, Hall. split; [lia |].
    exists ([MsgFound (length (project_path :: rest))] ++ new).
    split; [rewrite Hnew; unfold s1; cbn [console]; by rewrite <- app_assoc |].
    intros Hfull. apply Forall_app. split; [by repeat constructor |].
    apply Hall. lia.
Qed.

Lemma analyze_all_console (paths : list Path) (projects : list ProjectInfo)
    (s : @State Exception (@MainWorld Exception World)) :
  console (analyze_all analyze_project_step paths projects s).2 = console s.
Proof.
  revert projects s. induction paths as [| project_path rest IH];
    intros projects s; [reflexivity |].
  cbn [analyze_all]. unfold bind at 1. unfold lift at 1.
  destruct (on_world (analyze_project_step project_path) (world s))
    as [[e | project_info] w1]; [reflexivity |].
  by rewrite IH.
Qed.

Local Abbreviation run_main :=
  (main code_dir_exists analyze_project_step ensure_directory render_step
     write_text discover_projects_step generate_index_step).

End MainFacts.



(** The accesses made for a small project, in the order in which the
    code makes them: the tree walk (which leaves [build] out), the
    listing with [is_file()] on each item (which enters [build]), then
    two [stat] and one [open] for each code file in the order of the
    names. *)
Example generate_markdown_accesses_demo :
  let project :=
    Dir (u "Blink")
      [Dir (u "src") [File (u "z.pyc") 1];
       File (u "notes.txt") 5;
       Dir (u "build") [File (u "gen.c") 3];
       File (u "main.c") 8;
       Dir (u "inc") [File (u "a.h") 1]] in
  let info := analyze_project glob_match ascii_lower default_config
                [u "/"; u "work"] 0%Z [u "/"; u "work"; u "Code"; u "Blink"]
                project in
  (_generate_markdown glob_match ascii_lower ascii_upper py_isspace
     (λ _, u "2024-05-01 12:00:00") posix_path_str default_config
     (λ _ _, Decoded (u "int x;")) (λ _, inl []) (λ _, 0%Z) info project).2
  = [([], AccessExists); ([], AccessIsDir); ([], AccessIterdir);
     ([u "src"], AccessIsDir);
     ([u "notes.txt"], AccessIsDir); ([u "notes.txt"], AccessIsFile);
     ([u "build"], AccessIsDir); ([u "build"], AccessIsFile);
     ([u "main.c"], AccessIsDir); ([u "main.c"], AccessIsFile);
     ([u "inc"], AccessIsDir);
     ([u "inc"], AccessExists); ([u "inc"], AccessIsDir); ([u "inc"], AccessIterdir);
     ([u "inc"; u "a.h"], AccessIsDir); ([u "inc"; u "a.h"], AccessIsFile);
     ([u "src"], AccessExists); ([u "src"], AccessIsDir); ([u "src"], AccessIterdir);
     ([u "src"; u "z.pyc"], AccessIsDir); ([u "src"; u "z.pyc"], AccessIsFile);
     ([], AccessRglob);
     ([u "src"], AccessIsFile); ([u "notes.txt"], AccessIsFile);
     ([u "build"], AccessIsFile); ([u "main.c"], AccessIsFile);
     ([u "inc"], AccessIsFile); ([u "src"; u "z.pyc"], AccessIsFile);
     ([u "build"; u "gen.c"], AccessIsFile); ([u "inc"; u "a.h"], AccessIsFile);
     ([u "inc"; u "a.h"], AccessContent CallStat);
     ([u "inc"; u "a.h"], AccessContent CallStat);
     ([u "inc"; u "a.h"], AccessContent (CallOpenStrict utf_8));
     ([u "build"; u "gen.c"], AccessContent CallStat);
     ([u "build"; u "gen.c"], AccessContent CallStat);
     ([u "build"; u "gen.c"], AccessContent (CallOpenStrict utf_8));
     ([u "main.c"], AccessContent CallStat);
     ([u "main.c"], AccessContent CallStat);
     ([u "main.c"], AccessContent (CallOpenStrict utf_8))].
Proof. vm_compute. reflexivity. Qed.

Lemma markdown_structure_keeps_every_tree_line_witness :
  let project := Dir (u "Blink") [File (u "main.c") 20; Dir (u "inc") []] in
  List.filter (has_text py_isspace)
    (generate_tree_structure glob_match ascii_lower project
       (ignore_dirs default_config) (ignore_files default_config) 10 0)
  = generate_tree_structure glob_match ascii_lower project
      (ignore_dirs default_config) (ignore_files default_config) 10 0.
Proof.
  intros project.
  exact (proj1 (markdown_structure_keeps_every_tree_line glob_match ascii_lower
                  ascii_upper py_isspace (λ _, u "2024-05-01 12:00:00")
                  posix_path_str default_config
                  (λ _ _, Decoded (u "int x;")) (λ _, inl []) (λ _, 0%Z)
                  (analyze_project glob_match ascii_lower default_config
                     [u "/"; u "work"] 0%Z
                     [u "/"; u "work"; u "Code"; u "Blink"] project)
                  project eq_refl eq_refl eq_refl eq_refl)).
Defined.

Lemma render_items_nil (subtree : Node → list str) (items : list (Node * bool)) :
  render_items subtree items = [] ↔ items = [].
Proof.
  split; [| by intros ->].
  destruct items as [| [item []] rest]; [reflexivity | |]; discriminate.
Qed.

(** Below the depth cap the rendered tree is empty exactly when the
    directory has no visible entry, as for an empty directory or a path
    that is a regular file; at the cap it is the single truncation
    line. *)
Theorem generate_tree_structure_empty
    (fnmatch : str → str → bool) (lower : str → str) (root_path : Node)
    (ignore_dirs ignore_files : gset str) (max_depth current_depth : nat) :
  ((current_depth < max_depth)%nat →
   generate_tree_structure fnmatch lower root_path ignore_dirs ignore_files
     max_depth current_depth = []
   ↔ visible_items fnmatch root_path ignore_dirs ignore_files = [])
  ∧ ((max_depth ≤ current_depth)%nat →
     generate_tree_structure fnmatch lower root_path ignore_dirs ignore_files
       max_depth current_depth = [u "[目录层次过深，已截断]"]).
Proof.
  unfold generate_tree_structure. split.
  - intros Hdepth.
    destruct (max_depth - current_depth)%nat as [| depth_left] eqn:Hleft; [lia |].
    cbn [tree_lines]. rewrite render_items_nil. split.
    + intros Hsorted. apply Permutation_nil_r.
      rewrite <- Hsorted. symmetry. apply py_sorted_perm.
    + by intros ->.
  - intros Hdepth.
    replace (max_depth - current_depth)%nat with 0%nat by lia. reflexivity.
Qed.

Lemma generate_tree_structure_empty_witness :
  generate_tree_structure glob_match ascii_lower
    (Dir (u "empty") [Dir (u ".git") [File (u "HEAD") 41]; File (u "a.pyc") 9])
    (ignore_dirs default_config) (ignore_files default_config) 10 0 = []
  ∧ generate_tree_structure glob_match ascii_lower
      (Dir (u "deep") [File (u "main.c") 20])
      (ignore_dirs default_config) (ignore_files default_config) 3 3
    = [u "[目录层次过深，已截断]"].
Proof.
  split.
  - apply (proj1 (generate_tree_structure_empty glob_match ascii_lower _ _ _ 10 0));
      [lia | vm_compute; reflexivity].
  - apply (proj2 (generate_tree_structure_empty glob_match ascii_lower _ _ _ 3 3)).
    lia.
Defined.


(** ** The index, continued *)

(** The index does not depend on the order in which the projects are
    given, as long as their names are pairwise different: the order in
    which the file system lists the projects does not show in it. *)
Theorem generate_index_order_independent (config : Config)
    (strftime : datetime → str) (root_path : Path) (now : datetime)
    (projects projects' : list ProjectInfo) :
  projects ≡ₚ projects' →
  NoDup (map name projects) →
  generate_index config strftime root_path now projects
  = generate_index config strftime root_path now projects'.
Proof.
  intros Hperm Hnames. unfold generate_index. f_equal. f_equal.
  unfold index_lines. rewrite (Permutation_length Hperm).
  assert (py_sorted name_leb projects = py_sorted name_leb projects') as Hsorted.
  { apply (py_sorted_permutation name str_leb str_leb_total str_leb_trans
             str_leb_antisym); assumption. }
  destruct projects as [| p rest], projects' as [| p' rest'].
  - reflexivity.
  - by apply Permutation_nil_l in Hperm.
  - by apply Permutation_nil_r in Hperm.
  - by rewrite Hsorted.
Qed.

Lemma generate_index_order_independent_witness :
  let alpha := {| name := u "Alpha"; source_path := [u "Code"; u "Alpha"];
                  target_path := [u "Markdown"; u "Alpha.md"];
                  generated_time := 0%Z; stats := empty_stats |} in
  let beta := {| name := u "Beta"; source_path := [u "Code"; u "Beta"];
                 target_path := [u "Markdown"; u "Beta.md"];
                 generated_time := 0%Z; stats := empty_stats |} in
  generate_index default_config (λ _, u "2024-05-01 12:00:00") [] 0%Z [beta; alpha]
  = generate_index default_config (λ _, u "2024-05-01 12:00:00") [] 0%Z [alpha; beta].
Proof.
  intros alpha beta. apply generate_index_order_independent.
  - apply Permutation_swap.
  - vm_compute. repeat constructor; rewrite ?elem_of_cons, ?elem_of_nil;
      intros H; repeat destruct H as [H | H]; try discriminate H; exact H.
Defined.

(** ** Classification and statistics *)

Lemma count_bucket_positive (config : Config) (b : Bucket) (exts : list str) :
  (0 < count_bucket config b exts)%nat
  ↔ ∃ ext, ext ∈ exts ∧ bucket_of_extension config ext = b.
Proof.
  unfold count_bucket. split.
  - intros Hpos.
    destruct (List.filter _ exts) as [| ext kept] eqn:Hfilter;
      [cbn in Hpos; lia |].
    assert (In ext (List.filter
                      (λ ext, bucket_eqb (bucket_of_extension config ext) b) exts))
      as Hin by (rewrite Hfilter; by left).
    apply filter_In in Hin as [Hin Hb]. exists ext.
    split; [by apply list_elem_of_In |].
    by destruct (bucket_of_extension config ext), b.
  - intros (ext & Hin & Hb).
    assert (In ext (List.filter
                      (λ ext, bucket_eqb (bucket_of_extension config ext) b) exts))
      as Hfiltered.
    { apply filter_In. split; [by apply list_elem_of_In |].
      rewrite Hb. by destruct b. }
    destruct (List.filter _ exts); [destruct Hfiltered | cbn; lia].
Qed.

Section ClassifierAndStatistics.
Context (fnmatch : str → str → bool) (lower : str → str) (config : Config).

Lemma qualifies_bucket (item : Node) :
  qualifies lower config item = true
  ↔ is_file item = true
    ∧ bucket_of_extension config (lower (suffix (node_name item))) ≠ OtherBucket.
Proof.
  unfold qualifies, bucket_of_extension.
  destruct (is_file item); cbn [andb]; [| by split; [| intros []]].
  destruct (set_mem _ (code_extensions config)); cbn [orb].
  - split; [| reflexivity]. intros _. split; [reflexivity |].
    by destruct (str_in _ _).
  - destruct (set_mem _ (project_extensions config)).
    + by split.
    + split; [discriminate |]. by intros [_ H].
Qed.

(** A directory for which [analyze_project] counts a code, header or
    project file is classified as a project by [_is_project_directory].
    The converse holds when no file with a code or project extension
    matches a file-name ignore pattern; such a file makes the directory a
    project without being counted. *)
Theorem counted_files_make_a_project
    (root_path : Path) (now : datetime) (project_parts : Path) (project : Node) :
  let st := stats (analyze_project fnmatch lower config root_path now
                     project_parts project) in
  ((0 < code_files st + header_files st + project_files st)%nat →
   _is_project_directory lower config project = true)
  ∧ ((∀ f, inside f project → qualifies lower config f = true →
           should_ignore_file fnmatch f (ignore_files config) = false) →
     _is_project_directory lower config project = true →
     (0 < code_files st + header_files st + project_files st)%nat).
Proof.
  cbv zeta. unfold analyze_project. cbn [stats].
  destruct (analyze_loop fnmatch lower config (rglob project) empty_stats)
    as (Hc & Hh & Hp & _).
  cbv zeta in Hc, Hh, Hp. rewrite Hc, Hh, Hp.
  cbn [empty_stats code_files header_files project_files Nat.add].
  set (exts := map (λ f, lower (suffix (node_name f)))
                   (List.filter (retained fnmatch config) (rglob project))).
  split.
  - intros Hpos.
    assert (∃ ext, ext ∈ exts ∧ bucket_of_extension config ext ≠ OtherBucket)
      as (ext & Hin & Hb).
    { destruct (count_bucket config CodeBucket exts) eqn:Hcode.
      - destruct (count_bucket config HeaderBucket exts) eqn:Hheader.
        + destruct (proj1 (count_bucket_positive config ProjectBucket exts))
            as (ext & Hin & Hb); [lia |].
          exists ext. split; [exact Hin |]. by rewrite Hb.
        + destruct (proj1 (count_bucket_positive config HeaderBucket exts))
            as (ext & Hin & Hb); [lia |].
          exists ext. split; [exact Hin |]. by rewrite Hb.
      - destruct (proj1 (count_bucket_positive config CodeBucket exts))
          as (ext & Hin & Hb); [lia |].
        exists ext. split; [exact Hin |]. by rewrite Hb. }
    apply list_elem_of_fmap in Hin as (item & -> & Hitem).
    apply list_elem_of_In, filter_In in Hitem as [Hitem Hkept].
    apply is_project_directory_iff. exists item. split.
    + by apply rglob_inside, list_elem_of_In.
    + apply qualifies_bucket. split; [| exact Hb].
      unfold retained in Hkept. by apply andb_true_iff in Hkept as [? _].
  - intros Hkept Hproject.
    apply is_project_directory_iff in Hproject as (f & Hf & Hq).
    pose proof (proj1 (qualifies_bucket f) Hq) as [Hfile Hb].
    assert (lower (suffix (node_name f)) ∈ exts) as Hin.
    { apply list_elem_of_fmap. exists f. split; [reflexivity |].
      apply list_elem_of_In, filter_In. split.
      - by apply list_elem_of_In, rglob_inside.
      - unfold retained. by rewrite Hfile, (Hkept f Hf Hq). }
    destruct (bucket_of_extension config (lower (suffix (node_name f)))) eqn:Hbucket;
      [| | | done].
    + pose proof (proj2 (count_bucket_positive config CodeBucket exts)
                    (ex_intro _ _ (conj Hin Hbucket))). lia.
    + pose proof (proj2 (count_bucket_positive config HeaderBucket exts)
                    (ex_intro _ _ (conj Hin Hbucket))). lia.
    + pose proof (proj2 (count_bucket_positive config ProjectBucket exts)
                    (ex_intro _ _ (conj Hin Hbucket))). lia.
Qed.
End ClassifierAndStatistics.

Lemma counted_files_make_a_project_witness :
  _is_project_directory ascii_lower default_config
    (Dir (u "Blink") [Dir (u "src") [File (u "main.c") 20]]) = true.
Proof.
  apply (proj1 (counted_files_make_a_project glob_match ascii_lower default_config
                  [u "/"; u "work"] 0%Z [u "Code"; u "Blink"]
                  (Dir (u "Blink") [Dir (u "src") [File (u "main.c") 20]]))).
  vm_compute. lia.
Defined.
